(** * SOP Creator: a shallow embedding of [pages/SOP_Creator.py]

    The page collects the fields of a Standard Operating Procedure, asks a
    completion service for a draft, and fills a .docx template.  This file
    embeds the text transforms ([replace_placeholders], the [<think>]
    stripping of [generate_sop]), the document walk ([process_document],
    [adjust_font]) and the two button handlers that mutate the session state
    ([generate_doc] with its caller, and the Accept/Decline panel), and
    proves the properties the specification states about them.

    Python [str] values are modelled as lists of characters whose code point
    is below 256; a [dict] is an association list in insertion order, which
    is the order [dict.items()] iterates in. *)

From Stdlib Require Import List Ascii ZArith Lia Bool Arith.
From Stdlib Require String.
Import String.StringSyntax.
Delimit Scope string_scope with string.
Import ListNotations.

Set Implicit Arguments.

(** ** Python string primitives *)

Module PyStr.

Definition str := list ascii.

(** A string literal of the source. *)
Definition py (s : String.string) : str := String.list_ascii_of_string s.
#[global] Arguments py s%_string.

(** [str.isspace] on one character (code points below 256): the ASCII
    controls TAB..CR, the separators FS..US, the space, NEL and NBSP. *)
Definition isspace (c : ascii) : bool :=
  let n := N_of_ascii c in
  (((9 <=? n) && (n <=? 13)) || ((28 <=? n) && (n <=? 32))
   || (n =? 133) || (n =? 160))%N.

Fixpoint lstrip (s : str) : str :=
  match s with
  | [] => []
  | c :: s' => if isspace c then lstrip s' else s
  end.

Definition rstrip (s : str) : str := rev (lstrip (rev s)).

(** [s.strip()] *)
Definition strip (s : str) : str := rstrip (lstrip s).

(** Truth value of a string: [bool(s)]. *)
Definition truthy (s : str) : bool :=
  match s with [] => false | _ :: _ => true end.

(** [s.strip() == ""] *)
Definition isblank (s : str) : bool := negb (truthy (strip s)).

(** [s.startswith(p)] *)
Fixpoint startswith (p s : str) : bool :=
  match p, s with
  | [], _ => true
  | _ :: _, [] => false
  | a :: p', b :: s' => Ascii.eqb a b && startswith p' s'
  end.

(** [sub in s] *)
Fixpoint contains (sub s : str) : bool :=
  startswith sub s ||
  match s with
  | [] => false
  | _ :: s' => contains sub s'
  end.

(** The scan of [s.replace(old, new)] for a non-empty [old]: left to right,
    an occurrence of [old] at the current position is replaced and the scan
    resumes behind it ([skip] counts the characters of the occurrence still
    to be passed over), so the occurrences replaced do not overlap. *)
Fixpoint replace_scan (old new : str) (skip : nat) (s : str) : str :=
  match s with
  | [] => []
  | c :: s' =>
      match skip with
      | S k => replace_scan old new k s'
      | O =>
          if startswith old s
          then new ++ replace_scan old new (length old - 1) s'
          else c :: replace_scan old new 0 s'
      end
  end.

(** [s.replace(old, new)]; with an empty [old], Python puts [new] before
    every character and at the end. *)
Definition str_replace (s old new : str) : str :=
  match old with
  | [] => new ++ flat_map (fun c => c :: new) s
  | _ :: _ => replace_scan old new 0 s
  end.

(** [sep.join(parts)] *)
Fixpoint join (sep : str) (parts : list str) : str :=
  match parts with
  | [] => []
  | [p] => p
  | p :: rest => p ++ sep ++ join sep rest
  end.

(** [old] has no border: no proper non-empty suffix of it is a prefix of
    it, so two occurrences of [old] in a text never overlap. *)
Definition unbordered (old : str) : Prop :=
  forall m, 0 < m < length old -> startswith (skipn m old) old = false.

End PyStr.

Import PyStr.

(** ** The placeholder substitution engine *)

Module Subst.

(** The [field_values] dict: keys and values in insertion order. *)
Definition fieldset := list (str * str).

(** [f"{{{{{key}}}}}"], the token [{{key}}]. *)
Definition placeholder (key : str) : str := py "{{" ++ key ++ py "}}".

(** What one key's placeholder is replaced with: the raw value when it is
    not blank, the empty string otherwise. *)
Definition effective (value : str) : str :=
  if truthy (strip value) then value else [].

(** One iteration of the loop of [replace_placeholders]. *)
Definition replace_step (text : str) (kv : str * str) : str :=
  let (key, value) := kv in
  let placeholder := placeholder key in
  if truthy (strip value)
  then str_replace text placeholder value
  else str_replace text placeholder [].

(** [replace_placeholders(text, field_values)] *)
Definition replace_placeholders (text : str) (field_values : fieldset) : str :=
  fold_left replace_step field_values text.

(** [any(f"{{{{{key}}}}}" in text for key in field_values)] *)
Definition any_placeholder (text : str) (field_values : fieldset) : bool :=
  existsb (fun kv => contains (placeholder (fst kv)) text) field_values.

(** No key of [field_values] has its token in [text]. *)
Definition placeholder_free (text : str) (field_values : fieldset) : Prop :=
  forall key value, In (key, value) field_values ->
                    contains (placeholder key) text = false.

(** A key without brace characters, as the seven keys of the page are. *)
Definition brace_free (key : str) : Prop :=
  Forall (fun c => c <> "{"%char /\ c <> "}"%char) key.

(** A template text seen as literal stretches and tokens, the text it
    stands for, and the text with every token of a key of the dict filled
    in at once. *)
Inductive piece := Lit (s : str) | Hole (key : str).

Definition piece_text (p : piece) : str :=
  match p with
  | Lit s => s
  | Hole key => placeholder key
  end.

Definition flatten (t : list piece) : str := concat (map piece_text t).

(** [field_values[key]], when the key is there. *)
Fixpoint lookup (key : str) (field_values : fieldset) : option str :=
  match field_values with
  | [] => None
  | (k, v) :: rest =>
      if list_eq_dec ascii_dec key k then Some v else lookup key rest
  end.

Definition fill_piece (field_values : fieldset) (p : piece) : str :=
  match p with
  | Lit s => s
  | Hole key =>
      match lookup key field_values with
      | Some value => effective value
      | None => placeholder key
      end
  end.

Definition fill (t : list piece) (field_values : fieldset) : str :=
  concat (map (fill_piece field_values) t).

(** The template after the pass for one key. *)
Definition fill_key (key new : str) (p : piece) : piece :=
  match p with
  | Lit s => Lit s
  | Hole k => if list_eq_dec ascii_dec k key then Lit new else Hole k
  end.

(** A text without an opening brace. *)
Definition no_open_brace (s : str) : Prop := Forall (fun c => c <> "{"%char) s.

Definition plain_piece (p : piece) : Prop :=
  match p with
  | Lit s => no_open_brace s
  | Hole key => brace_free key
  end.

End Subst.

Import Subst.

(** ** The document, as python-docx presents it

    A paragraph is a sequence of styled runs; [paragraph.text] reads the
    concatenation of the run texts, and assigning to it leaves one fresh
    run holding the new text.  A table is a sequence of rows of cells, a
    cell a sequence of paragraphs; each cell is reached once by the walk
    over [table.rows] and [row.cells]. *)

Module Docx.

Record run := { run_text : str; font_size : option Z }.

Record paragraph := { runs : list run }.

Record cell := { cell_paragraphs : list paragraph }.

Record row := { cells : list cell }.

Record table := { rows : list row }.

Record document := { paragraphs : list paragraph; tables : list table }.

(** [Pt(n)]: a length in English Metric Units. *)
Definition Pt (points : Z) : Z := (points * 12700)%Z.

(** The getter of [paragraph.text]. *)
Definition text (p : paragraph) : str := concat (map run_text (runs p)).

(** The setter of [paragraph.text]. *)
Definition set_text (p : paragraph) (t : str) : paragraph :=
  {| runs := [ {| run_text := t; font_size := None |} ] |}.

(** The body of the loop over [doc.paragraphs]. *)
Definition process_toplevel (field_values : fieldset) (p : paragraph) : paragraph :=
  if any_placeholder (text p) field_values
  then set_text p (replace_placeholders (text p) field_values)
  else p.

(** The body of the innermost loop over [cell.paragraphs]. *)
Definition process_in_cell (field_values : fieldset) (p : paragraph) : paragraph :=
  set_text p (replace_placeholders (text p) field_values).

Definition map_cell (f : paragraph -> paragraph) (c : cell) : cell :=
  {| cell_paragraphs := map f (cell_paragraphs c) |}.

Definition map_row (f : paragraph -> paragraph) (r : row) : row :=
  {| cells := map (map_cell f) (cells r) |}.

Definition map_table (f : paragraph -> paragraph) (t : table) : table :=
  {| rows := map (map_row f) (rows t) |}.

(** [process_document(doc, field_values)]; the in-place update of every
    paragraph is returned as the updated document. *)
Definition process_document (doc : document) (field_values : fieldset) : document :=
  {| paragraphs := map (process_toplevel field_values) (paragraphs doc);
     tables := map (map_table (process_in_cell field_values)) (tables doc) |}.

Definition resize (size : Z) (p : paragraph) : paragraph :=
  {| runs := map (fun r => {| run_text := run_text r; font_size := Some size |})
                 (runs p) |}.

(** [adjust_font(doc, size)] *)
Definition adjust_font (doc : document) (size : Z) : document :=
  {| paragraphs := map (resize size) (paragraphs doc);
     tables := map (map_table (resize size)) (tables doc) |}.

(** The texts of the paragraphs of a cell, a row, a table. *)
Definition cell_texts (c : cell) : list str := map text (cell_paragraphs c).
Definition row_texts (r : row) : list (list str) := map cell_texts (cells r).
Definition table_texts (t : table) : list (list (list str)) := map row_texts (rows t).

End Docx.

Import Docx.

(** ** The reasoning-trace stripping of [generate_sop] *)

Module Think.

Definition open_tag : str := py "<think>".
Definition close_tag : str := py "</think>".

(** [s.find(sub)], [None] standing for [-1]. *)
Fixpoint find (sub s : str) : option nat :=
  if startswith sub s then Some 0
  else match s with
       | [] => None
       | _ :: s' => option_map S (find sub s')
       end.

(** The scan of [re.sub(r"<think>.*?</think>", "", s, flags=re.DOTALL)]:
    at a position where [<think>] starts and a [</think>] follows, the
    match runs to the end of the first such [</think>] (the body is
    non-greedy and, under DOTALL, may hold any character) and is dropped;
    elsewhere the character is kept.  [skip] counts the characters of the
    current match still to be dropped. *)
Fixpoint sub_scan (skip : nat) (s : str) : str :=
  match s with
  | [] => []
  | c :: s' =>
      match skip with
      | S k => sub_scan k s'
      | O =>
          if startswith open_tag s then
            match find close_tag (skipn (length open_tag) s) with
            | Some j =>
                sub_scan (length open_tag + j + length close_tag - 1) s'
            | None => c :: sub_scan 0 s'
            end
          else c :: sub_scan 0 s'
      end
  end.

Definition remove_think (s : str) : str := sub_scan 0 s.

(** What [generate_sop] returns for the completion text [content]:
    [re.sub(...).strip()]. *)
Definition postprocess (content : str) : str := strip (remove_think content).



End Think.

Import Think.

(** ** [datetime.datetime.strptime(s, "%d %B %Y")]

    The library turns the format into the regular expression
    [(?P<d>3[0-1]|[1-2]\d|0[1-9]|[1-9]| [1-9])\s+(?P<B>...)\s+(?P<Y>\d\d\d\d)],
    the month group listing the full English month names longest first,
    compiled with IGNORECASE and matched at the start of the string; the
    call raises [ValueError] when there is no match, when text remains
    behind the match, and when the numbers found are not a date.  The
    matcher below enumerates the matches in the order the backtracking
    engine tries them, so its first element is the match the engine
    returns. *)

Module Strptime.

Definition isdigit (c : ascii) : bool :=
  let n := N_of_ascii c in ((48 <=? n) && (n <=? 57))%N.

Definition between (lo hi : ascii) (c : ascii) : bool :=
  ((N_of_ascii lo <=? N_of_ascii c) && (N_of_ascii c <=? N_of_ascii hi))%N.

(** Lower-casing of one character (code points below 256). *)
Definition lower (c : ascii) : ascii :=
  let n := N_of_ascii c in
  if (((65 <=? n) && (n <=? 90))
      || ((192 <=? n) && (n <=? 222) && negb (n =? 215)))%N
  then ascii_of_N (n + 32) else c.

(** A literal character of the pattern under IGNORECASE. *)
Definition ignorecase (p : ascii) (c : ascii) : bool :=
  Ascii.eqb (lower p) (lower c).

Definition literal (s : str) : list (ascii -> bool) := map ignorecase s.

(** A sequence of character classes against the head of [s]: the text
    matched and what follows it. *)
Fixpoint match_classes (cs : list (ascii -> bool)) (s : str) : option (str * str) :=
  match cs with
  | [] => Some ([], s)
  | cl :: cs' =>
      match s with
      | [] => None
      | c :: s' =>
          if cl c
          then option_map (fun r => (c :: fst r, snd r)) (match_classes cs' s')
          else None
      end
  end.

(** An alternation [a1|a2|...]: the successes, first alternative first. *)
Fixpoint alternation (alts : list (list (ascii -> bool))) (s : str)
  : list (str * str) :=
  match alts with
  | [] => []
  | a :: alts' =>
      match match_classes a s with
      | Some mr => mr :: alternation alts' s
      | None => alternation alts' s
      end
  end.

(** [\s+], greedy: what follows the run of spaces taken, longest run first. *)
Fixpoint spaces (s : str) : list str :=
  match s with
  | [] => []
  | c :: s' => if isspace c then spaces s' ++ [s'] else []
  end.

Definition day_group : list (list (ascii -> bool)) :=
  [ [Ascii.eqb "3"; between "0" "1"];
    [between "1" "2"; isdigit];
    [Ascii.eqb "0"; between "1" "9"];
    [between "1" "9"];
    [Ascii.eqb " "; between "1" "9"] ].

(** [calendar.month_name[1:]], lower-cased. *)
Definition month_names : list str :=
  [ py "january"; py "february"; py "march"; py "april"; py "may"; py "june";
    py "july"; py "august"; py "september"; py "october"; py "november";
    py "december" ].

(** The month names as [sorted(..., key=len, reverse=True)] orders them. *)
Definition month_group_names : list str :=
  [ py "september"; py "february"; py "november"; py "december";
    py "january"; py "october"; py "august"; py "march"; py "april";
    py "june"; py "july"; py "may" ].

Definition month_group : list (list (ascii -> bool)) :=
  map literal month_group_names.

Definition year_group : list (list (ascii -> bool)) :=
  [ [isdigit; isdigit; isdigit; isdigit] ].

(** The groups [d], [B], [Y] of a match and the text behind it. *)
Definition found : Type := str * str * str * str.

Definition matches (s : str) : list found :=
  flat_map (fun d =>
    flat_map (fun r1 =>
      flat_map (fun b =>
        flat_map (fun r2 =>
          map (fun y => (fst d, fst b, fst y, snd y))
              (alternation year_group r2))
          (spaces (snd b)))
        (alternation month_group r1))
      (spaces (snd d)))
    (alternation day_group s).

(** [int(s)] on a group of the match: decimal digits after optional
    leading spaces. *)
Definition int (s : str) : Z :=
  fold_left (fun acc c => (10 * acc + (Z.of_N (N_of_ascii c) - 48))%Z)
            (lstrip s) 0%Z.

Fixpoint index_of (x : str) (l : list str) : option nat :=
  match l with
  | [] => None
  | y :: l' =>
      if list_eq_dec ascii_dec x y then Some 0
      else option_map S (index_of x l')
  end.

Definition is_leap (year : Z) : bool :=
  ((year mod 4 =? 0) && (negb (year mod 100 =? 0) || (year mod 400 =? 0)))%Z.

Definition days_in_month (year month : Z) : Z :=
  (if month =? 2 then (if is_leap year then 29 else 28)
   else if (month =? 4) || (month =? 6) || (month =? 9) || (month =? 11)
        then 30 else 31)%Z.

(** The check of the [datetime] constructor. *)
Definition valid_date (year month day : Z) : bool :=
  ((1 <=? year) && (year <=? 9999) && (1 <=? month) && (month <=? 12)
   && (1 <=? day) && (day <=? days_in_month year month))%Z.

(** [strptime(s, "%d %B %Y")]: the date as (year, month, day), or [None]
    for [ValueError]. *)
Definition strptime (s : str) : option (Z * Z * Z) :=
  match matches s with
  | [] => None
  | (d, b, y, rest) :: _ =>
      match rest with
      | _ :: _ => None
      | [] =>
          match index_of (map lower b) month_names with
          | None => None
          | Some i =>
              let year := int y in
              let month := Z.of_nat (S i) in
              let day := int d in
              if valid_date year month day then Some (year, month, day)
              else None
          end
      end
  end.

(** Two decimal digits, four decimal digits. *)
Definition digit (n : Z) : ascii := ascii_of_N (Z.to_N (48 + n mod 10)).

Definition two_digits (n : Z) : str := [digit (n / 10); digit n].

Definition four_digits (n : Z) : str :=
  [digit (n / 1000); digit (n / 100); digit (n / 10); digit n].

End Strptime.

Import Strptime.

(** ** The page: session state, widgets and the button handlers *)

Module Page.

Definition bytes := list Byte.byte.

(** [st.session_state]; the two keys that [generate_doc] adds are absent
    until a document has been rendered. *)
Record session_state := {
  title : str;
  code : str;
  checklist_no : str;
  revision : str;
  date : str;
  position : str;
  actions_text : str;
  sop_suggestion : str;
  expanded : bool;
  doc_bytes : option bytes;
  doc_filename : option str
}.

(** The string-valued keys of the session state. *)
Inductive field := f_title | f_code | f_checklist_no | f_revision | f_date
                 | f_position | f_actions_text.

Definition field_name (f : field) : str :=
  match f with
  | f_title => py "title"
  | f_code => py "code"
  | f_checklist_no => py "checklist_no"
  | f_revision => py "revision"
  | f_date => py "date"
  | f_position => py "position"
  | f_actions_text => py "actions_text"
  end.

(** [st.session_state[field]] *)
Definition get (st : session_state) (f : field) : str :=
  match f with
  | f_title => title st
  | f_code => code st
  | f_checklist_no => checklist_no st
  | f_revision => revision st
  | f_date => date st
  | f_position => position st
  | f_actions_text => actions_text st
  end.

Definition set_actions_text (v : str) (st : session_state) : session_state :=
  {| title := title st; code := code st; checklist_no := checklist_no st;
     revision := revision st; date := date st; position := position st;
     actions_text := v; sop_suggestion := sop_suggestion st;
     expanded := expanded st; doc_bytes := doc_bytes st;
     doc_filename := doc_filename st |}.

Definition set_expanded (v : bool) (st : session_state) : session_state :=
  {| title := title st; code := code st; checklist_no := checklist_no st;
     revision := revision st; date := date st; position := position st;
     actions_text := actions_text st; sop_suggestion := sop_suggestion st;
     expanded := v; doc_bytes := doc_bytes st;
     doc_filename := doc_filename st |}.

Definition set_doc_bytes (v : bytes) (st : session_state) : session_state :=
  {| title := title st; code := code st; checklist_no := checklist_no st;
     revision := revision st; date := date st; position := position st;
     actions_text := actions_text st; sop_suggestion := sop_suggestion st;
     expanded := expanded st; doc_bytes := Some v;
     doc_filename := doc_filename st |}.

Definition set_doc_filename (v : str) (st : session_state) : session_state :=
  {| title := title st; code := code st; checklist_no := checklist_no st;
     revision := revision st; date := date st; position := position st;
     actions_text := actions_text st; sop_suggestion := sop_suggestion st;
     expanded := expanded st; doc_bytes := doc_bytes st;
     doc_filename := Some v |}.

(** What a run of the script puts on the page. *)
Inductive widget :=
| st_error (message : str)
| st_toast (message : str)
| st_expander (label : str) (is_expanded : bool)
| st_code (body : str)
| st_download_button (label : str) (data : bytes) (file_name : str).

(** An exception, with the text [str(e)] shows. *)
Record exn := { message_of : str }.

(** The stages of the [try] block of [generate_doc]. *)
Inductive stage := Loading | Substitution | FontAdjustment | Serialization.

(** The collaborators of a render: the document the template file parses
    to, the bytes a document saves to, and the exception, if any, that the
    file system or the document library raises in each stage. *)
Record env := {
  template : document;
  saved : document -> bytes;
  raises : stage -> option exn
}.

(** The state a handler works on, and how a handler ends. *)
Record world := { session : session_state; page : list widget }.

Inductive outcome (A : Type) :=
| Done (a : A)
| Raised (e : exn)
| Rerun.

Arguments Done {A} a.
Arguments Raised {A} e.
Arguments Rerun {A}.

Definition M (A : Type) : Type := world -> outcome A * world.

Definition ret {A} (a : A) : M A := fun w => (Done a, w).

Definition bind {A B} (m : M A) (k : A -> M B) : M B :=
  fun w =>
    match m w with
    | (Done a, w') => k a w'
    | (Raised e, w') => (Raised e, w')
    | (Rerun, w') => (Rerun, w')
    end.

Notation "x <- m ;; k" := (bind m (fun x => k))
  (at level 61, m at next level, right associativity).
Notation "m ;;; k" := (bind m (fun _ => k))
  (at level 61, right associativity).

Definition read : M session_state := fun w => (Done (session w), w).

Definition update (f : session_state -> session_state) : M unit :=
  fun w => (Done tt, {| session := f (session w); page := page w |}).

Definition show (x : widget) : M unit :=
  fun w => (Done tt, {| session := session w; page := page w ++ [x] |}).

Definition raise {A} (e : exn) : M A := fun w => (Raised e, w).

(** [st.rerun()] *)
Definition rerun {A} : M A := fun w => (Rerun, w).

(** [try: body except Exception as e: handler(e)]; what the body did to the
    session before it raised stays done. *)
Definition try_except {A} (body : M A) (handler : exn -> M A) : M A :=
  fun w =>
    match body w with
    | (Raised e, w') => handler e w'
    | r => r
    end.

(** A library call of stage [s] that yields [a] unless the stage raises. *)
Definition call {A} (E : env) (s : stage) (a : A) : M A :=
  match raises E s with
  | Some e => raise e
  | None => ret a
  end.

Definition required : list field :=
  [f_title; f_checklist_no; f_date; f_actions_text].

(** [[field for field in required if st.session_state[field].strip() == ""]] *)
Definition missing (st : session_state) : list field :=
  filter (fun f => isblank (get st f)) required.

Definition missing_message (fields : list field) : str :=
  py "Please fill in required fields: " ++ join (py ", ") (map field_name fields).

Definition date_message : str :=
  py "Please enter the date in DD MONTH YYYY format (e.g., 02 MARCH 2025)".

(** The [field_values] dict of [generate_doc]. *)
Definition field_values (st : session_state) : fieldset :=
  [ (py "TITLE", title st);
    (py "CODE", code st);
    (py "CHECKLIST.NO", checklist_no st);
    (py "REV", revision st);
    (py "DATE", date st);
    (py "POSITION", position st);
    (py "ACTIONS", actions_text st) ].

Definition filename_of (st : session_state) : str :=
  checklist_no st ++ py " - " ++ title st ++ py ".docx".

(** The [try] block of [generate_doc]. *)
Definition render (E : env) : M unit :=
  doc <- call E Loading (template E) ;;
  st <- read ;;
  doc <- call E Substitution (process_document doc (field_values st)) ;;
  doc <- call E FontAdjustment (adjust_font doc (Pt 8)) ;;
  st <- read ;;
  let filename := filename_of st in
  data <- call E Serialization (saved E doc) ;;
  update (set_doc_bytes data) ;;;
  update (set_doc_filename filename).

(** The [except Exception as e:] branch of [generate_doc]. *)
Definition render_failed (e : exn) : M unit :=
  show (st_error (py "Error generating document: " ++ message_of e)).

(** [generate_doc()] *)
Definition generate_doc (E : env) : M unit :=
  st <- read ;;
  match missing st with
  | _ :: _ => show (st_error (missing_message (missing st)))
  | [] =>
      match strptime (date st) with
      | None => show (st_error date_message)
      | Some _ =>
          try_except (render E) render_failed
      end
  end.

Definition failed_message : str :=
  py "Document generation failed or missing required fields.".

Definition KeyError (key : str) : exn :=
  {| message_of := py "'" ++ key ++ py "'" |}.

(** The body of [if st.button("Generate SOP"):]. *)
Definition generate_sop_clicked (E : env) : M unit :=
  generate_doc E ;;;
  st <- read ;;
  match doc_bytes st with
  | Some (b :: data) =>
      match doc_filename st with
      | Some name => show (st_download_button (py "Download") (b :: data) name)
      | None => raise (KeyError (py "doc_filename"))
      end
  | _ => show (st_error failed_message)
  end.

(** The suggestion panel, [if st.session_state["sop_suggestion"]: ...], in a
    run of the script where the Accept and Decline buttons report
    [accept] and [decline]. *)
Definition suggestion_panel (accept decline : bool) : M unit :=
  st <- read ;;
  if truthy (sop_suggestion st) then
    show (st_expander (py "SOP Suggestion") (expanded st)) ;;;
    show (st_code (sop_suggestion st)) ;;;
    (if accept then
       st <- read ;;
       update (set_actions_text (sop_suggestion st)) ;;;
       show (st_toast (py "SOP updated from suggestion.")) ;;;
       update (set_expanded false) ;;;
       rerun
     else ret tt) ;;;
    (if decline then
       show (st_toast (py "SOP suggestion declined.")) ;;;
       update (set_expanded false)
     else ret tt)
  else ret tt.

(** The widgets shown that offer a file for download. *)
Definition downloads (p : list widget) : list (bytes * str) :=
  flat_map (fun x => match x with
                     | st_download_button _ data name => [(data, name)]
                     | _ => []
                     end) p.

Definition errors (p : list widget) : list str :=
  flat_map (fun x => match x with st_error m => [m] | _ => [] end) p.

End Page.

Import Page.

(** ** A session, a template and two environments to run the handlers on *)

Module Scenario.

(** The session as the script's defaults leave it, with the four required
    fields filled in. *)
Definition form (title checklist_no date actions_text : str) : session_state :=
  {| title := title; code := []; checklist_no := checklist_no;
     revision := []; date := date; position := [];
     actions_text := actions_text; sop_suggestion := []; expanded := true;
     doc_bytes := None; doc_filename := None |}.

Definition radio_check : session_state :=
  form (py "Radio Check") (py "100.001") (py "02 MARCH 2025")
       (py "Turn on radio.").

Definition plain (t : str) : run := {| run_text := t; font_size := None |}.

(** A template with [{{DATE}}] in a paragraph, split over two runs, and
    [{{TITLE}}] and [{{ACTIONS}}] in a table cell. *)
Definition template_doc : document :=
  {| paragraphs := [ {| runs := [plain (py "Date: {{DA"); plain (py "TE}}")] |} ];
     tables :=
       [ {| rows :=
              [ {| cells :=
                     [ {| cell_paragraphs :=
                            [ {| runs := [plain (py "{{TITLE}}: ");
                                          plain (py "{{ACTIONS}}")] |} ] |} ] |} ] |} ] |}.

(** A stand-in for the serializer: the bytes of the paragraph texts. *)
Definition text_bytes (doc : document) : bytes :=
  map byte_of_ascii
      (concat (map text (paragraphs doc))
       ++ concat (concat (concat (concat (map table_texts (tables doc)))))).

Definition healthy : env :=
  {| template := template_doc; saved := text_bytes; raises := fun _ => None |}.

(** The template file cannot be opened. *)
Definition broken : env :=
  {| template := template_doc; saved := text_bytes;
     raises := fun s =>
       match s with
       | Loading => Some {| message_of := py "[Errno 2] No such file or directory" |}
       | _ => None
       end |}.

(** A fresh run of the script on a session: the page starts empty. *)
Definition run_on (st : session_state) : world := {| session := st; page := [] |}.

End Scenario.

Import Scenario.

(** ** The paragraphs and the shape of a document *)

Module Layout.

(** The paragraphs the walks over [table.rows], [row.cells] and
    [cell.paragraphs] reach, in the order they are reached. *)
Definition row_paragraphs (r : row) : list paragraph :=
  flat_map cell_paragraphs (cells r).

Definition table_paragraphs (t : table) : list paragraph :=
  flat_map row_paragraphs (rows t).

Definition cells_paragraphs (doc : document) : list paragraph :=
  flat_map table_paragraphs (tables doc).

(** How many paragraphs each cell of each row of each table holds, and how
    many paragraphs stand at top level. *)
Definition table_shape (t : table) : list (list nat) :=
  map (fun r => map (fun c => length (cell_paragraphs c)) (cells r)) (rows t).

Definition shape (doc : document) : nat * list (list (list nat)) :=
  (length (paragraphs doc), map table_shape (tables doc)).

(** Every run of the paragraph has the font size [size]. *)
Definition sized (size : Z) (p : paragraph) : Prop :=
  Forall (fun r => font_size r = Some size) (runs p).

End Layout.

Import Layout.

(** ** The suggestion service and the Get Help From AI button *)

Module Assistant.

(** [SYSTEM_PROMPT] *)
Definition SYSTEM_PROMPT : str := py "
Create a clear and simple Standard Operating Procedure (SOP)

Each SOP should have the following sections:

1. Procedures
   - Brief overview, then numbered steps.

2. Definitions (optional)
   - Explain unclear terms or acronyms.

Note: These will be US Air Force specific SOPs. Be sure to search for all relevant information from the Air Force from AFIs and DAFMANs.


- Search the user provided title and actions and provide the most accurate and up to date information based on their starting point, if given.
- Return only the SOP content, no other text.
- Relentlessly optimize for clarity and simplicity.
- Format: Plain text, no citations, no markdown.
- Do not include information that can become outdated.

".

(** The content of the user message. *)
Definition user_message (title actions : str) : str :=
  py "User has provided the following title and actions as a starting point for the SOP: "
  ++ title ++ py " - " ++ actions.

(** The completion service: for the system and the user message, the
    content of the first choice of the response, or the exception the
    call raises. *)
Definition service := str -> str -> exn + str.

(** [generate_sop(title, actions)] *)
Definition generate_sop (api : service) (title actions : str) : exn + str :=
  match api SYSTEM_PROMPT (user_message title actions) with
  | inl e => inl e
  | inr sop_text => inr (postprocess sop_text)
  end.

Definition set_sop_suggestion (v : str) (st : session_state) : session_state :=
  {| title := title st; code := code st; checklist_no := checklist_no st;
     revision := revision st; date := date st; position := position st;
     actions_text := actions_text st; sop_suggestion := v;
     expanded := expanded st; doc_bytes := doc_bytes st;
     doc_filename := doc_filename st |}.

(** Whether the script goes on behind the handler or was halted by
    [st.stop()]. *)
Inductive control := Continues | Stops.

Definition title_message : str := py "Please enter a Title first.".

(** The body of [if st.button("Get Help From AI"):]. *)
Definition get_help_clicked (api : service) (w : world) : control * world :=
  if isblank (title (session w)) then
    (Continues, {| session := session w;
                   page := page w ++ [st_error title_message] |})
  else
    match generate_sop api (title (session w)) (actions_text (session w)) with
    | inr suggestion =>
        (Continues, {| session := set_sop_suggestion suggestion (session w);
                       page := page w |})
    | inl e =>
        (Stops, {| session := session w;
                   page := page w ++ [st_error (py "API call failed: "
                                                ++ message_of e)] |})
    end.

End Assistant.

Import Assistant.

(** ** The defaults of the session state *)

Module Defaults.

(** [calendar.month_name[1:]], as [strftime] writes [%B]. *)
Definition month_titles : list str :=
  [ py "January"; py "February"; py "March"; py "April"; py "May"; py "June";
    py "July"; py "August"; py "September"; py "October"; py "November";
    py "December" ].

(** [datetime.datetime(year, month, day, ...).strftime("%d %B %Y")], for
    the years from 1000 on, which [%Y] writes with four digits on every
    platform. *)
Definition strftime (year month day : Z) : str :=
  two_digits day ++ py " "
  ++ nth (Z.to_nat (month - 1)) month_titles []
  ++ py " " ++ four_digits year.

(** Upper-casing of one character; [None] for the three characters below
    256 whose upper case is not one character below 256 (the micro sign,
    the sharp s and the y with diaeresis). *)
Definition upper_char (c : ascii) : option ascii :=
  let n := N_of_ascii c in
  if ((n =? 181) || (n =? 223) || (n =? 255))%N then None
  else if (((97 <=? n) && (n <=? 122))
           || ((224 <=? n) && (n <=? 254) && negb (n =? 247)))%N
       then Some (ascii_of_N (n - 32))
       else Some c.

(** [s.upper()], where it stays below 256. *)
Fixpoint upper (s : str) : option str :=
  match s with
  | [] => Some []
  | c :: s' =>
      match upper_char c, upper s' with
      | Some c', Some u => Some (c' :: u)
      | _, _ => None
      end
  end.

(** The session state before the script has run: any key may be absent. *)
Record stored := {
  stored_title : option str;
  stored_code : option str;
  stored_checklist_no : option str;
  stored_revision : option str;
  stored_date : option str;
  stored_position : option str;
  stored_actions_text : option str;
  stored_sop_suggestion : option str;
  stored_expanded : option bool;
  stored_doc_bytes : option bytes;
  stored_doc_filename : option str
}.

Definition nothing_stored : stored :=
  {| stored_title := None; stored_code := None; stored_checklist_no := None;
     stored_revision := None; stored_date := None; stored_position := None;
     stored_actions_text := None; stored_sop_suggestion := None;
     stored_expanded := None; stored_doc_bytes := None;
     stored_doc_filename := None |}.

Definition or_default {A : Type} (o : option A) (d : A) : A :=
  match o with Some a => a | None => d end.

(** The block of [if key not in st.session_state: ...] assignments;
    [today] is [datetime.datetime.now().strftime("%d %B %Y").upper()]. *)
Definition with_defaults (today : str) (s : stored) : session_state :=
  {| title := or_default (stored_title s) [];
     code := or_default (stored_code s) [];
     checklist_no := or_default (stored_checklist_no s) [];
     revision := or_default (stored_revision s) [];
     date := or_default (stored_date s) today;
     position := or_default (stored_position s) [];
     actions_text := or_default (stored_actions_text s) [];
     sop_suggestion := or_default (stored_sop_suggestion s) [];
     expanded := or_default (stored_expanded s) true;
     doc_bytes := stored_doc_bytes s;
     doc_filename := stored_doc_filename s |}.

(** The session state as the next run of the script finds it. *)
Definition store (st : session_state) : stored :=
  {| stored_title := Some (title st); stored_code := Some (code st);
     stored_checklist_no := Some (checklist_no st);
     stored_revision := Some (revision st); stored_date := Some (date st);
     stored_position := Some (position st);
     stored_actions_text := Some (actions_text st);
     stored_sop_suggestion := Some (sop_suggestion st);
     stored_expanded := Some (expanded st);
     stored_doc_bytes := doc_bytes st;
     stored_doc_filename := doc_filename st |}.

End Defaults.

Import Defaults.

(** ** What the handlers keep *)

Module Kept.

(** A session that holds document bytes holds a file name for them. *)
Definition named_when_rendered (st : session_state) : Prop :=
  doc_bytes st <> None -> doc_filename st <> None.

(** The document a render of the session saves. *)
Definition rendered_bytes (E : env) (st : session_state) : bytes :=
  saved E (adjust_font (process_document (template E) (field_values st)) (Pt 8)).

(** The session after a render that went through. *)
Definition with_document (E : env) (st : session_state) : session_state :=
  set_doc_filename (filename_of st) (set_doc_bytes (rendered_bytes E st) st).

End Kept.

Import Kept.

(** ** Facts about the string primitives *)

Section StringFacts.

Lemma startswith_app (p r : str) : startswith p (p ++ r) = true.
Proof.
  induction p as [|a p IH]; simpl; [reflexivity|].
  now rewrite Ascii.eqb_refl, IH.
Qed.

Lemma startswith_refl (p : str) : startswith p p = true.
Proof. rewrite <- (app_nil_r p) at 2. apply startswith_app. Qed.

Lemma startswith_firstn (k : nat) (s : str) : startswith (firstn k s) s = true.
Proof.
  pattern s at 2. rewrite <- (firstn_skipn k s). apply startswith_app.
Qed.

Lemma startswith_inv (p s : str) :
  startswith p s = true -> exists r, s = p ++ r.
Proof.
  revert s; induction p as [|a p IH]; intros s H.
  - now exists s.
  - destruct s as [|b s]; simpl in H; [discriminate|].
    apply andb_true_iff in H as [Hab Hps].
    apply Ascii.eqb_eq in Hab; subst b.
    destruct (IH _ Hps) as [r ->]. now exists r.
Qed.

Lemma startswith_nil_r (p : str) : startswith p [] = true -> p = [].
Proof. destruct p; [reflexivity | discriminate]. Qed.

Lemma contains_nil_l (s : str) : contains [] s = true.
Proof. destruct s; reflexivity. Qed.

Lemma contains_self (s : str) : contains s s = true.
Proof. destruct s; simpl; [reflexivity|]. now rewrite Ascii.eqb_refl, startswith_refl. Qed.

Lemma contains_cons_false (sub : str) (c : ascii) (s : str) :
  contains sub (c :: s) = false ->
  startswith sub (c :: s) = false /\ contains sub s = false.
Proof. simpl. intros H. now apply orb_false_iff in H. Qed.

Lemma contains_false_startswith (sub s : str) :
  contains sub s = false -> startswith sub s = false.
Proof. destruct s; simpl; intros H; now apply orb_false_iff in H. Qed.

Lemma contains_app_l (sub s r : str) :
  contains sub s = true -> contains sub (s ++ r) = true.
Proof.
  induction s as [|c s IH]; simpl.
  - rewrite orb_false_r. intros H. apply startswith_nil_r in H. subst.
    apply contains_nil_l.
  - intros H. apply orb_true_iff in H as [H|H].
    + destruct (startswith_inv _ _ H) as [x Hx].
      change (c :: s ++ r) with ((c :: s) ++ r). rewrite Hx, <- app_assoc.
      now rewrite startswith_app.
    + rewrite (IH H). apply orb_true_r.
Qed.

(** The scan passes over the rest of an occurrence. *)
Lemma replace_scan_skip (old new x r : str) :
  replace_scan old new (length x) (x ++ r) = replace_scan old new 0 r.
Proof. induction x as [|c x IH]; simpl; [reflexivity | exact IH]. Qed.

Lemma replace_scan_match (old new r : str) :
  old <> [] ->
  replace_scan old new 0 (old ++ r) = new ++ replace_scan old new 0 r.
Proof.
  destruct old as [|a o]; [congruence|]. intros _.
  change (replace_scan (a :: o) new 0 ((a :: o) ++ r))
    with (if startswith (a :: o) ((a :: o) ++ r)
          then new ++ replace_scan (a :: o) new (length (a :: o) - 1) (o ++ r)
          else a :: replace_scan (a :: o) new 0 (o ++ r)).
  rewrite startswith_app.
  replace (length (a :: o) - 1) with (length o) by (simpl; lia).
  now rewrite replace_scan_skip.
Qed.

Lemma replace_scan_absent (old new s : str) :
  contains old s = false -> replace_scan old new 0 s = s.
Proof.
  induction s as [|c s IH]; [reflexivity|].
  intros H. apply contains_cons_false in H as [H1 H2].
  simpl replace_scan. rewrite H1. now rewrite (IH H2).
Qed.

(** [s.replace(old, new)] is [s] when [old] does not occur in [s]. *)
Lemma str_replace_absent (s old new : str) :
  contains old s = false -> str_replace s old new = s.
Proof.
  destruct old as [|a o]; [now rewrite contains_nil_l|].
  apply replace_scan_absent.
Qed.

(** The whole text being the token, it becomes the new text, which is not
    scanned again. *)
Lemma str_replace_self (old new : str) :
  old <> [] -> str_replace old old new = new.
Proof.
  intros H. destruct old as [|a o] eqn:E; [congruence|]. unfold str_replace.
  rewrite <- (app_nil_r (a :: o)) at 2.
  rewrite replace_scan_match by congruence. apply app_nil_r.
Qed.

(** With an unbordered [old] absent from [pre], no occurrence of [old]
    starts inside [pre] in [pre ++ old ++ r]. *)
Lemma no_straddle (old pre r : str) :
  unbordered old -> contains old pre = false -> pre <> [] ->
  startswith old (pre ++ old ++ r) = false.
Proof.
  intros Hub Habs Hne.
  destruct (startswith old (pre ++ old ++ r)) eqn:E; [exfalso | reflexivity].
  destruct (startswith_inv _ _ E) as [x Hx].
  destruct (Nat.le_gt_cases (length old) (length pre)) as [Hle|Hlt].
  - (* [old] lies within [pre] *)
    assert (Hp : firstn (length old) pre = old).
    { apply (f_equal (firstn (length old))) in Hx.
      rewrite firstn_app in Hx.
      replace (length old - length pre) with 0 in Hx by lia.
      rewrite firstn_O, app_nil_r in Hx.
      rewrite Hx, firstn_app, Nat.sub_diag, firstn_O, app_nil_r.
      apply firstn_all. }
    assert (Hc : contains old pre = true).
    { rewrite <- (firstn_skipn (length old) pre), Hp.
      apply contains_app_l, contains_self. }
    congruence.
  - (* an occurrence straddling [pre] and [old] is a border of [old] *)
    assert (Hm : 0 < length pre < length old).
    { split; [|exact Hlt]. destruct pre; [congruence | simpl; lia]. }
    specialize (Hub _ Hm).
    assert (Ho : old = pre ++ firstn (length old - length pre) old).
    { assert (R : firstn (length old) (old ++ x) = old).
      { now rewrite firstn_app, firstn_all, Nat.sub_diag, firstn_O, app_nil_r. }
      rewrite <- Hx in R. rewrite firstn_app in R.
      rewrite (@firstn_all2 _ (length old) pre) in R by lia.
      rewrite firstn_app in R.
      replace (length old - length pre - length old) with 0 in R by lia.
      rewrite firstn_O, app_nil_r in R. now symmetry. }
    assert (Hsk : skipn (length pre) old = firstn (length old - length pre) old).
    { rewrite Ho at 1. now rewrite skipn_app, skipn_all, Nat.sub_diag. }
    rewrite Hsk, startswith_firstn in Hub. discriminate.
Qed.

(** The leftmost occurrence of [old] is replaced and the scan goes on
    behind it. *)
Lemma replace_scan_first (old new pre r : str) :
  unbordered old -> old <> [] -> contains old pre = false ->
  replace_scan old new 0 (pre ++ old ++ r)
  = pre ++ new ++ replace_scan old new 0 r.
Proof.
  intros Hub Hne. induction pre as [|c pre IH]; intros Habs.
  - simpl. now apply replace_scan_match.
  - pose proof (no_straddle (pre := c :: pre) r Hub Habs) as Hno.
    apply contains_cons_false in Habs as [_ Habs].
    change ((c :: pre) ++ old ++ r) with (c :: (pre ++ old ++ r)) in *.
    simpl replace_scan. rewrite Hno by discriminate.
    now rewrite (IH Habs).
Qed.

(** Every occurrence of an unbordered [old] is replaced: a text cut at its
    occurrences of [old] comes back with [new] between the pieces. *)
Lemma str_replace_join (old new : str) (pieces : list str) :
  unbordered old -> old <> [] ->
  Forall (fun p => contains old p = false) pieces ->
  str_replace (join old pieces) old new = join new pieces.
Proof.
  intros Hub Hne Hall.
  assert (E : str_replace (join old pieces) old new
              = replace_scan old new 0 (join old pieces))
    by (destruct old; [congruence | reflexivity]).
  rewrite E. clear E.
  induction Hall as [|p rest Hp Hrest IH]; [reflexivity|].
  destruct rest as [|q rest].
  - simpl. now apply replace_scan_absent.
  - change (join old (p :: q :: rest)) with (p ++ old ++ join old (q :: rest)).
    change (join new (p :: q :: rest)) with (p ++ new ++ join new (q :: rest)).
    rewrite replace_scan_first by assumption. now rewrite IH.
Qed.

Lemma skipn_head_In (k : nat) (l : str) (h : ascii) (t : str) :
  skipn k l = h :: t -> In h l.
Proof.
  intros H. rewrite <- (firstn_skipn k l), H.
  apply in_or_app. right. now left.
Qed.

End StringFacts.

(** ** Facts about the substitution engine *)

Section SubstFacts.

Lemma placeholder_nonempty (key : str) : placeholder key <> [].
Proof. discriminate. Qed.

(** The token of a brace-free key does not overlap itself. *)
Lemma unbordered_placeholder (key : str) :
  brace_free key -> unbordered (placeholder key).
Proof.
  intros Hk m [Hm0 Hm].
  change (placeholder key) with ("{"%char :: "{"%char :: (key ++ py "}}")) in *.
  remember (key ++ py "}}") as body eqn:Eb.
  assert (Hbody : Forall (fun c => c <> "{"%char) body).
  { subst body. apply Forall_app. split.
    - eapply Forall_impl; [|exact Hk]. now intros c [H _].
    - repeat constructor; discriminate. }
  assert (Hlen : 2 <= length body)
    by (subst body; rewrite length_app; simpl; lia).
  clear Eb Hk.
  destruct m as [|[|m]]; [lia | |]; cbn [skipn].
  - destruct body as [|c body]; [simpl in Hlen; lia|].
    inversion Hbody as [|? ? Hc _]; subst.
    cbn [startswith]. rewrite Ascii.eqb_refl.
    apply Ascii.eqb_neq in Hc. now rewrite Hc.
  - destruct (skipn m body) as [|h t] eqn:E.
    + apply (f_equal (@length ascii)) in E. rewrite length_skipn in E.
      simpl in E, Hm. lia.
    + apply skipn_head_In in E. rewrite Forall_forall in Hbody.
      apply Hbody, Ascii.eqb_neq in E.
      cbn [startswith]. now rewrite E.
Qed.

Lemma replace_step_effective (text key value : str) :
  replace_step text (key, value)
  = str_replace text (placeholder key) (effective value).
Proof.
  unfold replace_step, effective. now destruct (truthy (strip value)).
Qed.

Lemma replace_placeholders_cons (text : str) (kv : str * str) (rest : fieldset) :
  replace_placeholders text (kv :: rest)
  = replace_placeholders (replace_step text kv) rest.
Proof. reflexivity. Qed.

Lemma replace_placeholders_app (text : str) (pre post : fieldset) :
  replace_placeholders text (pre ++ post)
  = replace_placeholders (replace_placeholders text pre) post.
Proof. apply fold_left_app. Qed.


(** Keys whose token is not in the text are no-ops. *)
Lemma replace_placeholders_absent (text : str) (field_values : fieldset) :
  placeholder_free text field_values ->
  replace_placeholders text field_values = text.
Proof.
  induction field_values as [|[key value] rest IH]; intros H; [reflexivity|].
  rewrite replace_placeholders_cons, replace_step_effective.
  rewrite str_replace_absent by (apply (H key value); now left).
  apply IH. intros k v Hin. apply (H k v). now right.
Qed.

Lemma placeholder_free_app (text : str) (pre post : fieldset) :
  placeholder_free text (pre ++ post) <->
  placeholder_free text pre /\ placeholder_free text post.
Proof.
  unfold placeholder_free. split.
  - intros H. split; intros k v Hin; apply (H k v), in_or_app; tauto.
  - intros [H1 H2] k v Hin. apply in_app_or in Hin as [Hin|Hin]; eauto.
Qed.

(** With only [key]'s token in play, the whole substitution is the one
    replacement of that token. *)
Lemma replace_placeholders_single
      (text key value : str) (pre post : fieldset) :
  placeholder_free text pre ->
  placeholder_free (str_replace text (placeholder key) (effective value)) post ->
  replace_placeholders text (pre ++ (key, value) :: post)
  = str_replace text (placeholder key) (effective value).
Proof.
  intros Hpre Hpost.
  rewrite replace_placeholders_app, (replace_placeholders_absent Hpre).
  rewrite replace_placeholders_cons, replace_step_effective.
  now apply replace_placeholders_absent.
Qed.

(** *** Filling a template *)

Lemma replace_scan_plain (key new s rest : str) :
  no_open_brace s ->
  replace_scan (placeholder key) new 0 (s ++ rest)
  = s ++ replace_scan (placeholder key) new 0 rest.
Proof.
  induction 1 as [|c s Hc _ IH]; [reflexivity|].
  change ((c :: s) ++ rest) with (c :: (s ++ rest)).
  cbn [replace_scan].
  change (placeholder key) with ("{"%char :: "{"%char :: (key ++ py "}}")) at 1.
  cbn [startswith].
  assert (E : Ascii.eqb "{" c = false)
    by (apply Ascii.eqb_neq; congruence).
  rewrite E. cbn [andb]. now rewrite IH.
Qed.

Lemma startswith_other_key (key key' rest : str) :
  brace_free key -> brace_free key' -> key <> key' ->
  startswith (key ++ py "}}") (key' ++ py "}}" ++ rest) = false.
Proof.
  intros Hk. revert key'.
  induction Hk as [|a key [_ Ha] _ IH]; intros key' Hk' Hne.
  - destruct Hk' as [|b key' [_ Hb] _]; [congruence|].
    change ([] ++ py "}}") with ("}"%char :: py "}").
    change ((b :: key') ++ py "}}" ++ rest)
      with (b :: (key' ++ py "}}" ++ rest)).
    cbn [startswith].
    assert (E : Ascii.eqb "}" b = false)
      by (apply Ascii.eqb_neq; congruence).
    now rewrite E.
  - change ((a :: key) ++ py "}}") with (a :: (key ++ py "}}")).
    destruct Hk' as [|b key' _ Hk'].
    + change ([] ++ py "}}" ++ rest) with ("}"%char :: (py "}" ++ rest)).
      cbn [startswith].
      apply Ascii.eqb_neq in Ha. now rewrite Ha.
    + change ((b :: key') ++ py "}}" ++ rest)
        with (b :: (key' ++ py "}}" ++ rest)).
      cbn [startswith].
      destruct (Ascii.eqb_spec a b) as [->|Hab]; [|reflexivity].
      cbn [andb]. apply IH; [exact Hk' | congruence].
Qed.

(** The token of another key is passed over unchanged. *)
Lemma replace_scan_other_key (key key' new rest : str) :
  brace_free key -> brace_free key' -> key' <> key ->
  replace_scan (placeholder key) new 0 (placeholder key' ++ rest)
  = placeholder key' ++ replace_scan (placeholder key) new 0 rest.
Proof.
  intros Hk Hk' Hne.
  assert (Hbody : no_open_brace (key' ++ py "}}")).
  { apply Forall_app. split.
    - eapply Forall_impl; [|exact Hk']. now intros c [H _].
    - repeat constructor; discriminate. }
  change (placeholder key' ++ rest)
    with ("{"%char :: "{"%char :: ((key' ++ py "}}") ++ rest)).
  set (body := (key' ++ py "}}") ++ rest).
  assert (H0 : startswith (placeholder key) ("{"%char :: "{"%char :: body) = false).
  { change (placeholder key) with ("{"%char :: "{"%char :: (key ++ py "}}")).
    cbn [startswith]. rewrite Ascii.eqb_refl. cbn [andb].
    subst body. rewrite <- app_assoc.
    apply startswith_other_key; congruence. }
  assert (H1 : startswith (placeholder key) ("{"%char :: body) = false).
  { change (placeholder key) with ("{"%char :: "{"%char :: (key ++ py "}}")).
    cbn [startswith]. rewrite Ascii.eqb_refl. cbn [andb].
    subst body. destruct (key' ++ py "}}") as [|c t] eqn:E.
    - apply app_eq_nil in E as [_ E]. discriminate.
    - inversion Hbody as [|? ? Hc _]; subst. cbn [app startswith].
      assert (E' : Ascii.eqb "{" c = false)
        by (apply Ascii.eqb_neq; congruence).
      now rewrite E'. }
  cbn [replace_scan]. rewrite H0. cbn [replace_scan]. rewrite H1.
  subst body. rewrite replace_scan_plain by exact Hbody.
  reflexivity.
Qed.

Lemma str_replace_flatten (key new : str) (t : list piece) :
  brace_free key -> Forall plain_piece t ->
  str_replace (flatten t) (placeholder key) new
  = flatten (map (fill_key key new) t).
Proof.
  intros Hk Ht.
  change (str_replace (flatten t) (placeholder key) new)
    with (replace_scan (placeholder key) new 0 (flatten t)).
  induction Ht as [|p t Hp _ IH]; [reflexivity|].
  change (flatten (p :: t)) with (piece_text p ++ flatten t).
  change (flatten (map (fill_key key new) (p :: t)))
    with (piece_text (fill_key key new p) ++ flatten (map (fill_key key new) t)).
  rewrite <- IH. destruct p as [s|k]; cbn [piece_text fill_key plain_piece] in *.
  - now apply replace_scan_plain.
  - destruct (list_eq_dec ascii_dec k key) as [->|Hne]; cbn [piece_text].
    + apply replace_scan_match, placeholder_nonempty.
    + now apply replace_scan_other_key.
Qed.

Lemma fill_after_key (key value : str) (rest : fieldset) (t : list piece) :
  fill (map (fill_key key (effective value)) t) rest
  = fill t ((key, value) :: rest).
Proof.
  unfold fill. rewrite map_map. f_equal. apply map_ext. intros [s|k].
  - reflexivity.
  - cbn [fill_key fill_piece lookup].
    now destruct (list_eq_dec ascii_dec k key).
Qed.

Lemma plain_fill_key (key new : str) (t : list piece) :
  no_open_brace new -> Forall plain_piece t ->
  Forall plain_piece (map (fill_key key new) t).
Proof.
  intros Hn Ht. apply Forall_map. eapply Forall_impl; [|exact Ht].
  intros [s|k] Hp; cbn [fill_key]; [exact Hp|].
  now destruct (list_eq_dec ascii_dec k key).
Qed.

(** When neither the literal text of a template nor a value holds an
    opening brace, [replace_placeholders] fills every token of every key of
    the dict, with the raw value or, for a blank value, with nothing, and
    leaves the tokens of other keys in place. *)
Theorem replace_placeholders_fills_template
        (field_values : fieldset) (t : list piece) :
  Forall brace_free (map fst field_values) ->
  Forall (fun kv => no_open_brace (snd kv)) field_values ->
  Forall plain_piece t ->
  replace_placeholders (flatten t) field_values = fill t field_values.
Proof.
  revert t. induction field_values as [|[key value] rest IH]; intros t Hk Hv Ht.
  - reflexivity.
  - inversion Hk as [|? ? Hkey Hrest]; subst.
    inversion Hv as [|? ? Hval Hvals]; subst. cbn [snd fst] in *.
    rewrite replace_placeholders_cons, replace_step_effective.
    rewrite str_replace_flatten by assumption.
    assert (He : no_open_brace (effective value))
      by (unfold effective; destruct (truthy (strip value));
          [exact Hval | constructor]).
    rewrite IH by auto using plain_fill_key.
    apply fill_after_key.
Qed.

End SubstFacts.

(** ** The substitution engine: what the specification states *)

Section SubstClaims.

(** C5: keys whose token [{{KEY}}] does not occur in the text are no-ops,
    so [replace_placeholders] returns a text holding none of the tokens
    unchanged; consequently, when the output of a substitution holds no
    token any more, substituting again returns that same output. *)
Theorem replace_placeholders_free_fixed (text : str) (field_values : fieldset) :
  (placeholder_free text field_values ->
   replace_placeholders text field_values = text)
  /\ (placeholder_free (replace_placeholders text field_values) field_values ->
      replace_placeholders (replace_placeholders text field_values) field_values
      = replace_placeholders text field_values).
Proof.
  split; intros H; now apply replace_placeholders_absent.
Qed.

Lemma replace_placeholders_free_fixed_witness :
  let fv := [(py "TITLE", py "Radio Check"); (py "CODE", py "")] in
  replace_placeholders (py "Checklist {{REV}}") fv = py "Checklist {{REV}}"
  /\ replace_placeholders
       (replace_placeholders (py "{{TITLE}} ({{CODE}})") fv) fv
     = py "Radio Check ()".
Proof.
  intros fv. split.
  - apply (replace_placeholders_free_fixed (py "Checklist {{REV}}") fv).
    intros key value [H|[H|[]]]; inversion H; reflexivity.
  - transitivity (replace_placeholders (py "{{TITLE}} ({{CODE}})") fv);
      [|reflexivity].
    apply (replace_placeholders_free_fixed (py "{{TITLE}} ({{CODE}})") fv).
    intros key value [H|[H|[]]]; inversion H; reflexivity.
Defined.

(** C4: for every text and every key of the dict, every occurrence of the
    key's token [{{KEY}}] is replaced by [replace_placeholders]: by the
    raw, untrimmed value when the value is not blank, by the empty string
    when it is blank.  The text, as it stands when the key's turn comes
    (after the keys before it in the dict), is given cut at its
    occurrences of the token ([pieces] are the stretches between them);
    the result is the substitution of the later keys applied to the
    pieces joined by the value, or by nothing.  For all keys at once: a
    text of literal stretches and tokens, where neither the stretches nor
    the values hold an opening brace, comes out with every token of every
    key of the dict filled with its raw value, or with nothing for a blank
    value, and the tokens of other keys in place.  Matching is exact and
    case-sensitive: a key whose exact token does not occur when its turn
    comes changes nothing. *)
Theorem replace_every_occurrence
        (key value : str) (pieces : list str) (pre post : fieldset) (text : str) :
  brace_free key ->
  Forall (fun p => contains (placeholder key) p = false) pieces ->
  replace_placeholders text pre = join (placeholder key) pieces ->
  (isblank value = false ->
   replace_placeholders text (pre ++ (key, value) :: post)
   = replace_placeholders (join value pieces) post)
  /\ (isblank value = true ->
      replace_placeholders text (pre ++ (key, value) :: post)
      = replace_placeholders (join [] pieces) post)
  /\ (forall (field_values : fieldset) (t : list piece),
        Forall brace_free (map fst field_values) ->
        Forall (fun kv => no_open_brace (snd kv)) field_values ->
        Forall plain_piece t ->
        replace_placeholders (flatten t) field_values
        = concat (map (fun p =>
                         match p with
                         | Lit s => s
                         | Hole k =>
                             match lookup k field_values with
                             | Some v => if isblank v then [] else v
                             | None => placeholder k
                             end
                         end) t))
  /\ (forall other,
        contains (placeholder key) (replace_placeholders other pre) = false ->
        replace_placeholders other (pre ++ (key, value) :: post)
        = replace_placeholders other (pre ++ post)).
Proof.
  intros Hk Hp Hmid.
  assert (Hpass : replace_placeholders text (pre ++ (key, value) :: post)
                  = replace_placeholders (join (effective value) pieces) post).
  { rewrite replace_placeholders_app, replace_placeholders_cons.
    rewrite replace_step_effective, Hmid.
    rewrite str_replace_join; auto using unbordered_placeholder.
    discriminate. }
  unfold isblank. split; [|split; [|split]].
  - intros Hb. rewrite Hpass. unfold effective.
    now destruct (truthy (strip value)).
  - intros Hb. rewrite Hpass. unfold effective.
    now destruct (truthy (strip value)).
  - intros field_values t Hkeys Hvals Ht.
    rewrite replace_placeholders_fills_template by assumption.
    unfold fill. f_equal. apply map_ext. intros [s|k]; [reflexivity|].
    cbn [fill_piece]. destruct (lookup k field_values) as [v|]; [|reflexivity].
    unfold effective, isblank. now destruct (truthy (strip v)).
  - intros other Ho.
    rewrite !replace_placeholders_app, replace_placeholders_cons.
    rewrite replace_step_effective. now rewrite str_replace_absent.
Qed.

Lemma replace_every_occurrence_witness :
  replace_placeholders (py "{{TITLE}}|{{CODE}}|{{TITLE}}|{{ACTIONS}}|{{title}}")
    [(py "TITLE", py " Radio Check "); (py "CODE", py "  ");
     (py "ACTIONS", py "Turn on radio.")]
  = py " Radio Check || Radio Check |Turn on radio.|{{title}}"
  /\ replace_placeholders (py "{{TITLE}}: {{ACTIONS}} ({{REV}}) {{OTHER}}")
       (field_values radio_check)
     = py "Radio Check: Turn on radio. () {{OTHER}}"
  /\ replace_placeholders (py "{{title}}")
       [(py "CODE", py "c"); (py "TITLE", py "Radio Check"); (py "REV", py "r")]
     = replace_placeholders (py "{{title}}") [(py "CODE", py "c"); (py "REV", py "r")].
Proof.
  assert (Ht : brace_free (py "TITLE")) by (repeat constructor; discriminate).
  assert (Hc : brace_free (py "CODE")) by (repeat constructor; discriminate).
  assert (Ha : brace_free (py "ACTIONS")) by (repeat constructor; discriminate).
  split; [|split].
  - (* the pass for TITLE, then the pass for the blank CODE, then ACTIONS *)
    destruct (@replace_every_occurrence (py "TITLE") (py " Radio Check ")
                [ []; py "|{{CODE}}|"; py "|{{ACTIONS}}|{{title}}" ] []
                [(py "CODE", py "  "); (py "ACTIONS", py "Turn on radio.")]
                (py "{{TITLE}}|{{CODE}}|{{TITLE}}|{{ACTIONS}}|{{title}}")
                Ht ltac:(repeat constructor) eq_refl) as [H1 _].
    etransitivity; [exact (H1 eq_refl)|].
    destruct (@replace_every_occurrence (py "CODE") (py "  ")
                [ py " Radio Check |"; py "| Radio Check |{{ACTIONS}}|{{title}}" ] []
                [(py "ACTIONS", py "Turn on radio.")]
                (py " Radio Check |{{CODE}}| Radio Check |{{ACTIONS}}|{{title}}")
                Hc ltac:(repeat constructor) eq_refl) as [_ [H2 _]].
    etransitivity; [exact (H2 eq_refl)|].
    destruct (@replace_every_occurrence (py "ACTIONS") (py "Turn on radio.")
                [ py " Radio Check || Radio Check |"; py "|{{title}}" ] [] []
                (py " Radio Check || Radio Check |{{ACTIONS}}|{{title}}")
                Ha ltac:(repeat constructor) eq_refl) as [H3 _].
    exact (H3 eq_refl).
  - destruct (@replace_every_occurrence (py "TITLE") (py "Radio Check")
                [ [] ; [] ] [] [] (py "{{TITLE}}")
                Ht ltac:(repeat constructor) eq_refl) as [_ [_ [Hall _]]].
    apply (Hall (field_values radio_check)
                [Hole (py "TITLE"); Lit (py ": "); Hole (py "ACTIONS");
                 Lit (py " ("); Hole (py "REV"); Lit (py ") ");
                 Hole (py "OTHER")]).
    + repeat constructor; discriminate.
    + repeat constructor; discriminate.
    + repeat constructor; discriminate.
  - destruct (@replace_every_occurrence (py "TITLE") (py "Radio Check")
                [ py "{{title}}" ] [(py "CODE", py "c")] [(py "REV", py "r")]
                (py "{{title}}")
                Ht ltac:(repeat constructor) eq_refl) as [_ [_ [_ Hexact]]].
    apply (Hexact (py "{{title}}")). reflexivity.
Defined.

(** C2, as the specification states it, fails: with TITLE bound to the
    literal [{{CODE}}] and CODE bound to [X], the dict of [generate_doc]
    turns the text [{{TITLE}}] into [X]; the literal [{{CODE}}] that was
    introduced as TITLE's value has been scanned, and replaced, in the
    iteration for CODE. *)
Lemma replaced_text_is_rescanned :
  let st := {| title := py "{{CODE}}"; code := py "X";
               checklist_no := py "100.001"; revision := py "A";
               date := py "02 MARCH 2025"; position := py "NCOIC";
               actions_text := py "Turn on radio.";
               sop_suggestion := []; expanded := true;
               doc_bytes := None; doc_filename := None |} in
  let output := replace_placeholders (py "{{TITLE}}") (field_values st) in
  output = py "X" /\ contains (py "{{CODE}}") output = false.
Proof. split; reflexivity. Qed.

(** C2, amended: the substitution is one single-pass replacement per key,
    in the order of the dict.  The value put in for a key is not scanned
    for that key's own token nor for the tokens of the keys before it, but
    it is scanned for the tokens of the keys after it: the text [{{KEY}}]
    becomes KEY's value with the substitution of the later keys applied to
    it, and KEY's value itself, verbatim, when KEY is the last key. *)
Theorem value_scanned_by_later_keys_only
        (pre post : fieldset) (key value : str) :
  placeholder_free (placeholder key) pre ->
  isblank value = false ->
  replace_placeholders (placeholder key) (pre ++ (key, value) :: post)
  = replace_placeholders value post
  /\ replace_placeholders (placeholder key) (pre ++ [(key, value)]) = value.
Proof.
  intros Hpre Hb.
  assert (Hstep : replace_step (placeholder key) (key, value) = value).
  { rewrite replace_step_effective. unfold effective.
    unfold isblank in Hb. destruct (truthy (strip value)); [|discriminate].
    apply str_replace_self, placeholder_nonempty. }
  split.
  - rewrite replace_placeholders_app, (replace_placeholders_absent Hpre).
    now rewrite replace_placeholders_cons, Hstep.
  - rewrite replace_placeholders_app, (replace_placeholders_absent Hpre).
    now rewrite replace_placeholders_cons, Hstep.
Qed.

Lemma value_scanned_by_later_keys_only_witness :
  replace_placeholders (py "{{CODE}}")
    [(py "TITLE", py "Radio Check"); (py "CODE", py "{{TITLE}} {{CODE}}");
     (py "REV", py "B")]
  = replace_placeholders (py "{{TITLE}} {{CODE}}") [(py "REV", py "B")]
  /\ replace_placeholders (py "{{CODE}}")
       [(py "TITLE", py "Radio Check"); (py "CODE", py "{{TITLE}} {{CODE}}")]
     = py "{{TITLE}} {{CODE}}".
Proof.
  assert (Hpre : placeholder_free (placeholder (py "CODE"))
                                  [(py "TITLE", py "Radio Check")])
    by (intros key value [H|[]]; inversion H; reflexivity).
  split.
  - apply (@value_scanned_by_later_keys_only _ [(py "REV", py "B")] _
             (py "{{TITLE}} {{CODE}}") Hpre eq_refl).
  - apply (@value_scanned_by_later_keys_only _ [] _
             (py "{{TITLE}} {{CODE}}") Hpre eq_refl).
Defined.

End SubstClaims.

(** ** The document walk *)

Section DocxFacts.

Variable field_values : fieldset.







End DocxFacts.


(** ** Stripping the reasoning trace *)

Section ThinkFacts.














(** [lstrip] and [strip] cut whitespace, and only whitespace, off the ends. *)
Lemma lstrip_spec (s : str) :
  exists l, s = l ++ lstrip s /\ forallb isspace l = true
            /\ (forall c, hd_error (lstrip s) = Some c -> isspace c = false).
Proof.
  induction s as [|c s (l & E & Hl & Hh)].
  - exists []. repeat split. discriminate.
  - simpl. destruct (isspace c) eqn:Ec.
    + exists (c :: l). simpl. rewrite Ec, Hl. repeat split; [congruence | exact Hh].
    + exists []. repeat split. simpl. intros c' [= <-]. exact Ec.
Qed.

Lemma strip_spec (s : str) :
  exists l r, s = l ++ strip s ++ r
              /\ forallb isspace l = true /\ forallb isspace r = true
              /\ (forall c, hd_error (strip s) = Some c -> isspace c = false)
              /\ (forall c, hd_error (rev (strip s)) = Some c -> isspace c = false).
Proof.
  destruct (lstrip_spec s) as (l & El & Hl & Hhd).
  destruct (lstrip_spec (rev (lstrip s))) as (r & Er & Hr & Hlast).
  exists l, (rev r). unfold strip, rstrip.
  assert (Emid : lstrip s = rev (lstrip (rev (lstrip s))) ++ rev r).
  { rewrite <- rev_app_distr, <- Er. symmetry. apply rev_involutive. }
  split; [|split; [|split; [|split]]].
  - now rewrite <- Emid.
  - exact Hl.
  - rewrite forallb_forall in *. intros c Hc. apply Hr. now apply in_rev.
  - intros c Hc. destruct (rev (lstrip (rev (lstrip s)))) as [|c0 t] eqn:E;
      [discriminate|]. simpl in Hc. injection Hc as ->.
    apply Hhd. rewrite Emid. reflexivity.
  - rewrite rev_involutive. exact Hlast.
Qed.

End ThinkFacts.



(** ** The handlers of the page *)

Section PageFacts.

Variable E : env.

(** No session write of [render] precedes a call that can raise: when a
    stage raises, the session is as it was. *)
Lemma render_raises (w : world) (s : stage) (e : exn) :
  raises E s = Some e ->
  exists e', render E w = (Raised e', w) /\ exists s', raises E s' = Some e'.
Proof.
  intros Hs. unfold render, bind, call, read, raise, ret.
  destruct (raises E Loading) as [e0|] eqn:E0; [eauto|].
  destruct (raises E Substitution) as [e1|] eqn:E1; [eauto|].
  destruct (raises E FontAdjustment) as [e2|] eqn:E2; [eauto|].
  destruct (raises E Serialization) as [e3|] eqn:E3; [eauto|].
  destruct s; congruence.
Qed.

Lemma render_returns (w : world) :
  (forall s, raises E s = None) ->
  render E w
  = (Done tt,
     {| session :=
          set_doc_filename (filename_of (session w))
            (set_doc_bytes
               (saved E (adjust_font
                           (process_document (template E)
                                             (field_values (session w)))
                           (Pt 8)))
               (session w));
        page := page w |}).
Proof.
  intros H. unfold render, bind, call, read, raise, ret, update.
  now rewrite !H.
Qed.

Lemma generate_doc_missing (w : world) :
  missing (session w) <> [] ->
  generate_doc E w
  = (Done tt, {| session := session w;
                 page := page w ++ [st_error (missing_message (missing (session w)))] |}).
Proof.
  intros H. unfold generate_doc, bind, read.
  destruct (missing (session w)); [congruence | reflexivity].
Qed.

Lemma generate_doc_bad_date (w : world) :
  missing (session w) = [] -> strptime (date (session w)) = None ->
  generate_doc E w
  = (Done tt, {| session := session w;
                 page := page w ++ [st_error date_message] |}).
Proof.
  intros Hm Hd. unfold generate_doc, bind, read. now rewrite Hm, Hd.
Qed.

Lemma generate_doc_valid (w : world) :
  missing (session w) = [] -> strptime (date (session w)) <> None ->
  generate_doc E w = try_except (render E) render_failed w.
Proof.
  intros Hm Hd. unfold generate_doc, bind, read. rewrite Hm.
  destruct (strptime (date (session w))); [reflexivity | congruence].
Qed.

(** A render that raises is reported, and leaves the session as it was:
    what [doc_bytes] held before the attempt, it still holds. *)
Lemma generate_doc_render_raises (w : world) (s : stage) (e : exn) :
  missing (session w) = [] -> strptime (date (session w)) <> None ->
  raises E s = Some e ->
  exists e',
    generate_doc E w
    = (Done tt, {| session := session w;
                   page := page w ++ [st_error (py "Error generating document: "
                                                ++ message_of e')] |}).
Proof.
  intros Hm Hd Hs. rewrite generate_doc_valid by assumption.
  destruct (render_raises w s Hs) as (e' & Hr & _).
  exists e'. unfold try_except. now rewrite Hr.
Qed.

(** After a failed render, the caller of [generate_doc] offers no file when
    the session holds none from an earlier render... *)
Lemma failed_render_without_earlier_document (w : world) (s : stage) (e : exn) :
  missing (session w) = [] -> strptime (date (session w)) <> None ->
  raises E s = Some e ->
  doc_bytes (session w) = None ->
  downloads (page (snd (generate_sop_clicked E w))) = downloads (page w)
  /\ session (snd (generate_sop_clicked E w)) = session w.
Proof.
  intros Hm Hd Hs Hnone.
  destruct (generate_doc_render_raises w s Hm Hd Hs) as [e' He'].
  unfold generate_sop_clicked, bind. rewrite He'.
  unfold read. cbn [session]. rewrite Hnone. unfold show. cbn.
  split; [|reflexivity].
  unfold downloads. rewrite !flat_map_app. simpl. now rewrite !app_nil_r.
Qed.

(** ... and offers the file of the earlier render when it holds one. *)
Lemma failed_render_with_earlier_document
      (w : world) (s : stage) (e : exn)
      (b : Byte.byte) (data : bytes) (name : str) :
  missing (session w) = [] -> strptime (date (session w)) <> None ->
  raises E s = Some e ->
  doc_bytes (session w) = Some (b :: data) ->
  doc_filename (session w) = Some name ->
  downloads (page (snd (generate_sop_clicked E w)))
  = downloads (page w) ++ [(b :: data, name)].
Proof.
  intros Hm Hd Hs Hb Hn.
  destruct (generate_doc_render_raises w s Hm Hd Hs) as [e' He'].
  unfold generate_sop_clicked, bind. rewrite He'.
  unfold read. cbn [session]. rewrite Hb, Hn. unfold show. cbn.
  unfold downloads. rewrite !flat_map_app. simpl. now rewrite !app_nil_r.
Qed.

End PageFacts.

(** C7: for every session state, [generate_doc] finds the required fields
    (title, checklist_no, date, actions_text, and no others) that are blank
    after trimming, in that order.  When at least one of the four is blank
    it shows one error message that names exactly the blank ones, and ends
    there: the session is as it was, whatever the template and the
    libraries would have done.  With only the checklist number blank, the
    list is exactly [checklist_no]. *)
Theorem missing_fields_reported (E : env) (w : world) :
  let st := session w in
  let blank_names :=
    (if isblank (title st) then [py "title"] else [])
    ++ (if isblank (checklist_no st) then [py "checklist_no"] else [])
    ++ (if isblank (date st) then [py "date"] else [])
    ++ (if isblank (actions_text st) then [py "actions_text"] else []) in
  map field_name (missing st) = blank_names
  /\ (forall f, In f (missing st) <->
                (f = f_title \/ f = f_checklist_no \/ f = f_date
                 \/ f = f_actions_text)
                /\ isblank (get st f) = true)
  /\ (isblank (title st) = true \/ isblank (checklist_no st) = true
      \/ isblank (date st) = true \/ isblank (actions_text st) = true ->
      generate_doc E w
      = (Done tt,
         {| session := st;
            page := page w ++ [st_error (py "Please fill in required fields: "
                                         ++ join (py ", ") blank_names)] |}))
  /\ (isblank (checklist_no st) = true ->
      isblank (title st) = false ->
      isblank (date st) = false ->
      isblank (actions_text st) = false ->
      blank_names = [py "checklist_no"]
      /\ generate_doc E w
         = (Done tt,
            {| session := st;
               page := page w ++ [st_error (py "Please fill in required fields: checklist_no")] |})).
Proof.
  intros st blank_names.
  assert (Hnames : map field_name (missing st) = blank_names).
  { subst blank_names. unfold missing, required. cbn [filter get].
    destruct (isblank (title st)), (isblank (checklist_no st)),
      (isblank (date st)), (isblank (actions_text st)); reflexivity. }
  assert (Hrun : missing st <> [] ->
                 generate_doc E w
                 = (Done tt,
                    {| session := st;
                       page := page w ++ [st_error (py "Please fill in required fields: "
                                                    ++ join (py ", ") blank_names)] |})).
  { intros H. rewrite <- Hnames. now apply generate_doc_missing. }
  split; [exact Hnames|]. split; [|split].
  - intros f. unfold missing. rewrite filter_In. unfold required.
    cbn [In]. split.
    + intros [[H|[H|[H|[H|[]]]]] Hb]; subst f; tauto.
    + intros [[H|[H|[H|H]]] Hb]; subst f; tauto.
  - intros Hblank. apply Hrun. intros Hnil.
    rewrite Hnil in Hnames. subst blank_names. cbn [map] in Hnames.
    destruct Hblank as [H|[H|[H|H]]]; rewrite H in Hnames;
      destruct (isblank (title st)), (isblank (checklist_no st)),
        (isblank (date st)), (isblank (actions_text st));
      discriminate.
  - intros Hc Ht Hd Ha.
    assert (Hone : blank_names = [py "checklist_no"])
      by (subst blank_names; now rewrite Hc, Ht, Hd, Ha).
    split; [exact Hone|].
    rewrite Hrun.
    + now rewrite Hone.
    + intros Hnil. rewrite Hnil, Hone in Hnames. discriminate.
Qed.

Lemma missing_fields_reported_witness :
  let two := run_on (form (py "Radio Check") (py "  ") []
                          (py "Turn on radio.")) in
  let one := run_on (form (py "Radio Check") (py "  ") (py "02 MARCH 2025")
                          (py "Turn on radio.")) in
  generate_doc broken two
  = (Done tt,
     {| session := session two;
        page := [st_error (py "Please fill in required fields: checklist_no, date")] |})
  /\ generate_doc broken one
     = (Done tt,
        {| session := session one;
           page := [st_error (py "Please fill in required fields: checklist_no")] |})
  /\ map field_name (missing (session two)) = [py "checklist_no"; py "date"].
Proof.
  intros two one.
  destruct (missing_fields_reported broken two) as [Hnames [_ [Hrun _]]].
  destruct (missing_fields_reported broken one) as [_ [_ [_ Hone]]].
  split; [|split].
  - apply Hrun. right. left. reflexivity.
  - apply Hone; reflexivity.
  - exact Hnames.
Defined.

(** C6: the date check of [generate_doc] accepts [02 MARCH 2025], the
    handler going on to render, and rejects [2025-03-02], [32 MARCH 2025]
    and [02 MARCH]: for these it shows the message that names the DD MONTH
    YYYY format and ends there, the session as it was. *)
Theorem date_check_examples (E : env) (w : world) :
  missing (session w) = [] ->
  (date (session w) = py "02 MARCH 2025" ->
   strptime (date (session w)) = Some (2025, 3, 2)%Z
   /\ generate_doc E w = try_except (render E) render_failed w)
  /\ (In (date (session w))
         [py "2025-03-02"; py "32 MARCH 2025"; py "02 MARCH"] ->
      strptime (date (session w)) = None
      /\ generate_doc E w
         = (Done tt,
            {| session := session w;
               page := page w ++ [st_error (py "Please enter the date in DD MONTH YYYY format (e.g., 02 MARCH 2025)")] |})).
Proof.
  intros Hm. split.
  - intros Hd.
    assert (Hp : strptime (date (session w)) = Some (2025, 3, 2)%Z)
      by (rewrite Hd; vm_compute; reflexivity).
    split; [exact Hp|]. apply generate_doc_valid; [exact Hm | congruence].
  - intros Hin.
    assert (Hp : strptime (date (session w)) = None).
    { destruct Hin as [<-|[<-|[<-|[]]]]; vm_compute; reflexivity. }
    split; [exact Hp|]. now apply generate_doc_bad_date.
Qed.

Lemma date_check_examples_witness :
  let good := run_on radio_check in
  let bad := run_on (form (py "Radio Check") (py "100.001") (py "32 MARCH 2025")
                          (py "Turn on radio.")) in
  generate_doc healthy good = try_except (render healthy) render_failed good
  /\ generate_doc healthy bad
     = (Done tt, {| session := session bad; page := [st_error date_message] |}).
Proof.
  intros good bad. split.
  - destruct (@date_check_examples healthy good eq_refl) as [Hgood _].
    apply Hgood. reflexivity.
  - destruct (@date_check_examples healthy bad eq_refl) as [_ Hbad].
    apply Hbad. right. left. reflexivity.
Defined.

(** C9: when the session holds a suggestion, pressing Accept leaves
    [actions_text] equal to the stored suggestion, whatever it held before,
    and the expanded flag false; the rest of the session is untouched, and
    the script is rerun. *)
Theorem accept_overwrites_actions (w : world) (decline : bool) :
  truthy (sop_suggestion (session w)) = true ->
  let after := suggestion_panel true decline w in
  fst after = Rerun
  /\ actions_text (session (snd after)) = sop_suggestion (session w)
  /\ expanded (session (snd after)) = false
  /\ session (snd after)
     = set_expanded false
         (set_actions_text (sop_suggestion (session w)) (session w)).
Proof.
  intros H. unfold suggestion_panel, bind, read. rewrite H. cbn.
  repeat split.
Qed.

Lemma accept_overwrites_actions_witness :
  let st := {| title := py "Radio Check"; code := []; checklist_no := [];
               revision := []; date := py "02 MARCH 2025"; position := [];
               actions_text := py "my own steps";
               sop_suggestion := py "A. B. C."; expanded := true;
               doc_bytes := None; doc_filename := None |} in
  actions_text (session (snd (suggestion_panel true false (run_on st))))
  = py "A. B. C."
  /\ expanded (session (snd (suggestion_panel true false (run_on st)))) = false.
Proof.
  intros st.
  destruct (@accept_overwrites_actions (run_on st) false eq_refl)
    as [_ [Ha [He _]]].
  split; [exact Ha | exact He].
Defined.

(** ** The date check *)

Section StrptimeFacts.

Lemma isspace_lower (c : ascii) : isspace c = true -> isspace (lower c) = true.
Proof.
  destruct c as [[] [] [] [] [] [] [] []]; vm_compute; intros H;
    first [reflexivity | discriminate].
Qed.

Lemma digit_range (n : Z) :
  exists k, (0 <= k < 10)%Z /\ digit n = ascii_of_N (Z.to_N (48 + k))
            /\ (n mod 10 = k)%Z.
Proof.
  exists (n mod 10)%Z. repeat split.
  - apply Z.mod_pos_bound; lia.
  - apply Z.mod_pos_bound; lia.
Qed.

Ltac digit_cases n :=
  let k := fresh "k" in
  let Hk := fresh "Hk" in
  let Ed := fresh "Ed" in
  let Em := fresh "Em" in
  destruct (digit_range n) as (k & Hk & Ed & Em);
  rewrite Ed;
  assert (k = 0 \/ k = 1 \/ k = 2 \/ k = 3 \/ k = 4 \/ k = 5 \/ k = 6
          \/ k = 7 \/ k = 8 \/ k = 9)%Z
    as [->|[->|[->|[->|[->|[->|[->|[->|[->| ->]]]]]]]]] by lia.

Lemma isdigit_digit (n : Z) : isdigit (digit n) = true.
Proof. digit_cases n; reflexivity. Qed.

Lemma isspace_digit (n : Z) : isspace (digit n) = false.
Proof. digit_cases n; reflexivity. Qed.

Lemma value_digit (n : Z) : (Z.of_N (N_of_ascii (digit n)) - 48 = n mod 10)%Z.
Proof. digit_cases n; rewrite Em; reflexivity. Qed.

Lemma int_four_digits (year : Z) :
  (0 <= year <= 9999)%Z -> int (four_digits year) = year.
Proof.
  intros H. unfold int, four_digits. cbn [lstrip].
  rewrite isspace_digit. cbn [fold_left].
  rewrite !value_digit. Z.div_mod_to_equations. lia.
Qed.


(** A literal of the pattern matches the text whose lower-casing starts
    with the lower-cased literal. *)
Lemma match_classes_literal (pat s : str) :
  match_classes (literal pat) s
  = if startswith (map lower pat) (map lower s)
    then Some (firstn (length pat) s, skipn (length pat) s)
    else None.
Proof.
  revert s; induction pat as [|p pat IH]; intros s; [reflexivity|].
  destruct s as [|c s]; [reflexivity|].
  cbn [literal map match_classes startswith firstn skipn length].
  change (map ignorecase pat) with (literal pat).
  unfold ignorecase at 1.
  destruct (Ascii.eqb (lower p) (lower c)); [|reflexivity].
  rewrite IH. cbn [andb].
  now destruct (startswith (map lower pat) (map lower s)).
Qed.

Lemma firstn_length_app (x y : str) (n : nat) :
  n = length x -> firstn n (x ++ y) = x /\ skipn n (x ++ y) = y.
Proof.
  intros ->. split.
  - now rewrite firstn_app, firstn_all, Nat.sub_diag, firstn_O, app_nil_r.
  - now rewrite skipn_app, skipn_all, Nat.sub_diag.
Qed.

Lemma alternation_literals (names : list str) (s : str) :
  alternation (map literal names) s
  = flat_map (fun nm => if startswith (map lower nm) (map lower s)
                        then [(firstn (length nm) s, skipn (length nm) s)]
                        else []) names.
Proof.
  induction names as [|nm names IH]; [reflexivity|].
  cbn [map alternation flat_map]. rewrite match_classes_literal, IH.
  now destruct (startswith (map lower nm) (map lower s)).
Qed.

(** The month group matches a casing of a month name by that name's
    alternative alone. *)
Lemma alternation_month (name r : str) (i : nat) :
  nth_error month_names i = Some (map lower name) ->
  alternation month_group (name ++ " "%char :: r) = [(name, " "%char :: r)].
Proof.
  intros Hi. unfold month_group. rewrite alternation_literals, map_app.
  assert (Hcut : forall nm : str, length nm = length (map lower name) ->
                   (firstn (length nm) (name ++ " "%char :: r),
                    skipn (length nm) (name ++ " "%char :: r))
                   = (name, " "%char :: r)).
  { intros nm Hn. rewrite length_map in Hn.
    destruct (@firstn_length_app name (" "%char :: r) _ Hn) as [-> ->].
    reflexivity. }
  set (cut := fun nm : str =>
                (firstn (length nm) (name ++ " "%char :: r),
                 skipn (length nm) (name ++ " "%char :: r))) in *.
  change (flat_map
            (fun nm => if startswith (map lower nm)
                                     (map lower name ++ map lower (" "%char :: r))
                       then [cut nm] else [])
            month_group_names = [(name, " "%char :: r)]).
  change (forall nm : str, length nm = length (map lower name) ->
                     cut nm = (name, " "%char :: r)) in Hcut.
  clearbody cut. revert Hcut.
  generalize (map lower (" "%char :: r)). intros R Hcut.
  do 12 (destruct i as [|i];
         [ injection Hi as Hi; rewrite <- Hi in Hcut |- *;
           vm_compute; f_equal; apply Hcut; reflexivity |]).
  destruct i; discriminate.
Qed.

Lemma spaces_single (c : ascii) (r : str) :
  isspace c = false -> spaces (" "%char :: c :: r) = [c :: r].
Proof. intros H. cbn [spaces]. rewrite H. reflexivity. Qed.

Lemma hd_error_cons_inv (A : Type) (l : list A) (x : A) :
  hd_error l = Some x -> exists more, l = x :: more.
Proof. destruct l; [discriminate|]. intros [= ->]. eauto. Qed.

(** A two-digit day of the month is matched by the first alternative of
    the day group that fits. *)
Lemma alternation_day (day : Z) (r : str) :
  (1 <= day <= 31)%Z ->
  exists more,
    alternation day_group (two_digits day ++ " "%char :: r)
    = (two_digits day, " "%char :: r) :: more.
Proof.
  intros H. apply hd_error_cons_inv.
  assert (E : exists n, day = Z.of_nat n /\ n <= 31)
    by (exists (Z.to_nat day); lia).
  destruct E as (n & -> & Hn).
  do 32 (destruct n as [|n]; [first [lia | vm_compute; reflexivity]|]).
  lia.
Qed.

Lemma int_two_digits (day : Z) :
  (1 <= day <= 31)%Z -> int (two_digits day) = day.
Proof.
  intros H.
  assert (E : exists n, day = Z.of_nat n /\ n <= 31)
    by (exists (Z.to_nat day); lia).
  destruct E as (n & -> & Hn).
  do 32 (destruct n as [|n]; [first [lia | vm_compute; reflexivity]|]).
  lia.
Qed.

Lemma alternation_year (year : Z) :
  alternation year_group (four_digits year) = [(four_digits year, [])].
Proof.
  unfold year_group, four_digits. cbn [alternation match_classes].
  rewrite !isdigit_digit. reflexivity.
Qed.

Lemma index_of_month (i : nat) (nm : str) :
  nth_error month_names i = Some nm -> index_of nm month_names = Some i.
Proof.
  intros H.
  do 12 (destruct i as [|i]; [injection H as <-; vm_compute; reflexivity|]).
  destruct i; discriminate.
Qed.

Lemma month_name_head (i : nat) (name : str) :
  nth_error month_names i = Some (map lower name) ->
  exists c name', name = c :: name' /\ isspace c = false.
Proof.
  intros H. destruct name as [|c name'].
  - do 12 (destruct i as [|i]; [discriminate|]). destruct i; discriminate.
  - exists c, name'. split; [reflexivity|].
    destruct (isspace c) eqn:E; [|reflexivity].
    apply isspace_lower in E. cbn [map] in H.
    do 12 (destruct i as [|i];
           [injection H as H _; rewrite <- H in E; discriminate|]).
    destruct i; discriminate.
Qed.

Lemma days_in_month_le (year month : Z) : (days_in_month year month <= 31)%Z.
Proof.
  unfold days_in_month.
  repeat match goal with |- context [if ?b then _ else _] => destruct b end; lia.
Qed.

Lemma valid_date_bounds (year month day : Z) :
  valid_date year month day = true ->
  (1 <= year <= 9999 /\ 1 <= month <= 12 /\ 1 <= day <= 31)%Z.
Proof.
  unfold valid_date. rewrite !andb_true_iff, !Z.leb_le.
  pose proof (days_in_month_le year month). lia.
Qed.

(** The first match of the pattern on a date written as two digits, a
    casing of a month name and four digits, single spaces between. *)
Lemma matches_date (day year : Z) (i : nat) (name : str) :
  (1 <= day <= 31)%Z ->
  nth_error month_names i = Some (map lower name) ->
  exists more,
    matches (two_digits day ++ py " " ++ name ++ py " " ++ four_digits year)
    = (two_digits day, name, four_digits year, []) :: more.
Proof.
  intros Hday Hi.
  destruct (@alternation_day day (name ++ " "%char :: four_digits year) Hday)
    as [more Hd].
  destruct (@month_name_head i name Hi) as (c & name' & Hname & Hc).
  exists (flat_map (fun d =>
    flat_map (fun r1 =>
      flat_map (fun b =>
        flat_map (fun r2 =>
          map (fun y => (fst d, fst b, fst y, snd y))
              (alternation year_group r2))
          (spaces (snd b)))
        (alternation month_group r1))
      (spaces (snd d))) more).
  unfold matches.
  change (py " " ++ name ++ py " " ++ four_digits year)
    with (" "%char :: name ++ " "%char :: four_digits year).
  rewrite Hd. cbn [flat_map fst snd].
  assert (Hs1 : spaces (" "%char :: name ++ " "%char :: four_digits year)
                = [name ++ " "%char :: four_digits year]).
  { rewrite Hname. now apply spaces_single. }
  rewrite Hs1. cbn [flat_map]. rewrite (@alternation_month name (four_digits year) i Hi).
  cbn [flat_map fst snd].
  assert (Hs2 : spaces (" "%char :: four_digits year) = [four_digits year])
    by (apply spaces_single, isspace_digit).
  rewrite Hs2. cbn [flat_map]. rewrite alternation_year. reflexivity.
Qed.

End StrptimeFacts.

(** C10: the date check ignores the case of the month name.  For every
    day, month and year that make a date, written as two digits, any
    letter-casing of the full English name of the month ([name] lower-cases
    to it) and four digits, [strptime] returns that date, and
    [generate_doc] goes on to render as it does for [02 MARCH 2025]. *)
Theorem month_name_any_case (day month year : Z) (name : str) :
  valid_date year month day = true ->
  nth_error month_names (Z.to_nat (month - 1)) = Some (map lower name) ->
  let written := two_digits day ++ py " " ++ name ++ py " " ++ four_digits year in
  strptime written = Some (year, month, day)
  /\ (forall E w, missing (session w) = [] -> date (session w) = written ->
                  generate_doc E w = try_except (render E) render_failed w).
Proof.
  intros Hv Hi written.
  destruct (@valid_date_bounds year month day Hv) as (Hy & Hm & Hd).
  assert (Hp : strptime written = Some (year, month, day)).
  { subst written. unfold strptime.
    destruct (@matches_date day year _ name Hd Hi) as [more ->].
    rewrite (@index_of_month _ _ Hi).
    rewrite int_four_digits by lia. rewrite int_two_digits by lia.
    replace (Z.of_nat (S (Z.to_nat (month - 1)))) with month by lia.
    now rewrite Hv. }
  split; [exact Hp|].
  intros E w Hmiss Hdate. apply generate_doc_valid; [exact Hmiss|].
  rewrite Hdate. congruence.
Qed.

Lemma month_name_any_case_witness :
  strptime (py "02 march 2025") = Some (2025, 3, 2)%Z
  /\ strptime (py "02 March 2025") = Some (2025, 3, 2)%Z
  /\ strptime (py "29 fEbRuArY 2024") = Some (2024, 2, 29)%Z.
Proof.
  split; [|split].
  - apply (@month_name_any_case 2 3 2025 (py "march") eq_refl eq_refl).
  - apply (@month_name_any_case 2 3 2025 (py "March") eq_refl eq_refl).
  - apply (@month_name_any_case 29 2 2024 (py "fEbRuArY") eq_refl eq_refl).
Defined.

(** ** Rendering and the download button *)

Lemma field_values_keys_brace_free (st : session_state) :
  Forall brace_free (map fst (field_values st)).
Proof. repeat constructor; discriminate. Qed.

(** The end-to-end example of the specification: the cell reads the title
    and the actions, the paragraph the date, and the file is named after
    the checklist number and the title. *)
Example render_radio_check :
  let after := snd (generate_sop_clicked healthy (run_on radio_check)) in
  doc_filename (session after) = Some (py "100.001 - Radio Check.docx")
  /\ doc_bytes (session after)
     = Some (map byte_of_ascii
                 (py "Date: 02 MARCH 2025Radio Check: Turn on radio."))
  /\ errors (page after) = [].
Proof. vm_compute. repeat split. Qed.

(** C1 does not hold of the code.  A render that raises is caught and
    reported, but [generate_doc] leaves the [doc_bytes] of an earlier
    successful render in the session, and its caller offers a download
    whenever the session holds bytes: here a first click renders the
    document, and a second click, for which the template cannot be opened,
    shows the error and, next to it, a download button with the bytes of
    the first render. *)
Theorem stale_document_offered_after_failed_render :
  let first := snd (generate_sop_clicked healthy (run_on radio_check)) in
  let second := snd (generate_sop_clicked broken (run_on (session first))) in
  let rendered := map byte_of_ascii
                      (py "Date: 02 MARCH 2025Radio Check: Turn on radio.") in
  page first
  = [st_download_button (py "Download") rendered (py "100.001 - Radio Check.docx")]
  /\ page second
     = [st_error (py "Error generating document: [Errno 2] No such file or directory");
        st_download_button (py "Download") rendered (py "100.001 - Radio Check.docx")]
  /\ downloads (page second) = [(rendered, py "100.001 - Radio Check.docx")].
Proof. vm_compute. repeat split. Qed.

(** ** Worked examples *)

Example replace_two_keys :
  replace_placeholders (py "{{TITLE}} / {{CODE}} / {{TITLE}}")
    [(py "TITLE", py "Radio Check"); (py "CODE", py "  ")]
  = py "Radio Check /  / Radio Check".
Proof. reflexivity. Qed.

Example replace_empty_old : str_replace (py "abc") [] (py "-") = py "-a-b-c-".
Proof. reflexivity. Qed.

Example replace_no_overlap :
  str_replace (py "aaaa") (py "aa") (py "b") = py "bb".
Proof. reflexivity. Qed.

Example strip_example : strip (py "  a b  ") = py "a b".
Proof. reflexivity. Qed.

Example remove_think_unclosed :
  remove_think (py "a<think>b") = py "a<think>b".
Proof. reflexivity. Qed.

Example remove_think_two_blocks :
  postprocess (py " <think>x</think>A<think>y</think>B ") = py "AB".
Proof. reflexivity. Qed.

Example strptime_leap :
  strptime (py "29 february 2024") = Some (2024, 2, 29)%Z
  /\ strptime (py "29 february 2025") = None.
Proof. vm_compute. split; reflexivity. Qed.

Example strptime_trailing_text : strptime (py "02 MARCH 20255") = None.
Proof. vm_compute. reflexivity. Qed.

(** The template of the scenario, as literal stretches and tokens, filled
    from the session: the theorem on templates applies to it. *)
Example fill_radio_check :
  replace_placeholders (py "{{TITLE}}: {{ACTIONS}} ({{REV}})")
                       (field_values radio_check)
  = py "Radio Check: Turn on radio. ()".
Proof.
  change (py "{{TITLE}}: {{ACTIONS}} ({{REV}})")
    with (flatten [Hole (py "TITLE"); Lit (py ": "); Hole (py "ACTIONS");
                   Lit (py " ("); Hole (py "REV"); Lit (py ")")]).
  rewrite replace_placeholders_fills_template.
  - reflexivity.
  - apply field_values_keys_brace_free.
  - repeat constructor; discriminate.
  - repeat constructor; discriminate.
Qed.

(** ** More on the document walk: runs, sizes and shape *)

Section LayoutFacts.

Lemma flat_map_map_inner (A B C : Type) (g : B -> list C) (h : A -> B)
      (l : list A) :
  flat_map g (map h l) = flat_map (fun a => g (h a)) l.
Proof.
  induction l as [|a l IH]; [reflexivity|]. cbn. now rewrite IH.
Qed.

Lemma map_flat_map (A B C : Type) (f : B -> C) (g : A -> list B) (l : list A) :
  map f (flat_map g l) = flat_map (fun a => map f (g a)) l.
Proof.
  induction l as [|a l IH]; [reflexivity|]. cbn. now rewrite map_app, IH.
Qed.

Lemma table_paragraphs_map_table (f : paragraph -> paragraph) (t : table) :
  table_paragraphs (map_table f t) = map f (table_paragraphs t).
Proof.
  unfold table_paragraphs, map_table, row_paragraphs, map_row, map_cell.
  cbn [rows]. rewrite flat_map_map_inner, map_flat_map.
  apply flat_map_ext. intros r. cbn [cells].
  rewrite flat_map_map_inner, map_flat_map. reflexivity.
Qed.

Lemma cells_paragraphs_map (f : paragraph -> paragraph) (ts : list table) :
  flat_map table_paragraphs (map (map_table f) ts)
  = map f (flat_map table_paragraphs ts).
Proof.
  rewrite flat_map_map_inner, map_flat_map.
  apply flat_map_ext. intros t. apply table_paragraphs_map_table.
Qed.

Lemma table_shape_map_table (f : paragraph -> paragraph) (t : table) :
  table_shape (map_table f t) = table_shape t.
Proof.
  unfold table_shape, map_table, map_row, map_cell. cbn [rows].
  rewrite map_map. apply map_ext. intros r. cbn [cells].
  rewrite map_map. apply map_ext. intros c. cbn [cell_paragraphs].
  apply length_map.
Qed.

Lemma shape_map (f g : paragraph -> paragraph) (doc : document) :
  shape {| paragraphs := map f (paragraphs doc);
           tables := map (map_table g) (tables doc) |}
  = shape doc.
Proof.
  unfold shape. cbn [paragraphs tables]. rewrite length_map, map_map.
  f_equal. apply map_ext. intros t. apply table_shape_map_table.
Qed.

Lemma map_table_compose (f g : paragraph -> paragraph) (t : table) :
  map_table f (map_table g t) = map_table (fun p => f (g p)) t.
Proof.
  unfold map_table, map_row, map_cell. cbn [rows]. f_equal.
  rewrite map_map. apply map_ext. intros r. cbn [cells]. f_equal.
  rewrite map_map. apply map_ext. intros c. cbn [cell_paragraphs]. f_equal.
  apply map_map.
Qed.

Lemma map_table_ext (f g : paragraph -> paragraph) (t : table) :
  (forall p, f p = g p) -> map_table f t = map_table g t.
Proof.
  intros H. unfold map_table, map_row, map_cell. f_equal.
  apply map_ext. intros r. f_equal. apply map_ext. intros c. f_equal.
  now apply map_ext.
Qed.

Lemma text_resize (size : Z) (p : paragraph) : text (resize size p) = text p.
Proof. unfold text, resize. cbn [runs]. now rewrite map_map. Qed.

Lemma sized_resize (size : Z) (p : paragraph) : sized size (resize size p).
Proof.
  unfold sized, resize. cbn [runs]. apply Forall_map, Forall_forall.
  reflexivity.
Qed.

Lemma resize_resize (s1 s2 : Z) (p : paragraph) :
  resize s2 (resize s1 p) = resize s2 p.
Proof. unfold resize. cbn [runs]. now rewrite map_map. Qed.

End LayoutFacts.

(** X1: after [adjust_font], every run of every paragraph, at top level and
    in the cells of the tables, has the size asked for; no paragraph's text
    has changed, no paragraph has gained or lost a run, and the document has
    the shape it had. *)
Theorem adjust_font_sets_every_run (doc : document) (size : Z) :
  let doc' := adjust_font doc size in
  Forall (sized size) (paragraphs doc')
  /\ Forall (sized size) (cells_paragraphs doc')
  /\ map text (paragraphs doc') = map text (paragraphs doc)
  /\ map text (cells_paragraphs doc') = map text (cells_paragraphs doc)
  /\ map (fun p => length (runs p)) (paragraphs doc' ++ cells_paragraphs doc')
     = map (fun p => length (runs p)) (paragraphs doc ++ cells_paragraphs doc)
  /\ shape doc' = shape doc.
Proof.
  intros doc'. subst doc'. unfold adjust_font, cells_paragraphs.
  cbn [paragraphs tables]. rewrite cells_paragraphs_map.
  split; [|split; [|split; [|split; [|split]]]].
  - apply Forall_map, Forall_forall. intros p _. apply sized_resize.
  - apply Forall_map, Forall_forall. intros p _. apply sized_resize.
  - rewrite map_map. apply map_ext, text_resize.
  - rewrite map_map. apply map_ext, text_resize.
  - rewrite <- map_app, map_map. apply map_ext. intros p.
    unfold resize. cbn [runs]. apply length_map.
  - apply shape_map.
Qed.

(** X2: of two font adjustments in a row the second decides; adjusting
    twice to one size is adjusting once. *)
Theorem adjust_font_last_wins (doc : document) (s1 s2 : Z) :
  adjust_font (adjust_font doc s1) s2 = adjust_font doc s2.
Proof.
  unfold adjust_font. cbn [paragraphs tables]. f_equal.
  - rewrite map_map. apply map_ext, resize_resize.
  - rewrite map_map. apply map_ext. intros t.
    rewrite map_table_compose. apply map_table_ext, resize_resize.
Qed.


(** X4: [process_document] keeps the shape of the document: as many
    top-level paragraphs, tables, rows, cells and paragraphs per cell as
    before. *)
Theorem process_document_keeps_shape (doc : document) (field_values : fieldset) :
  shape (process_document doc field_values) = shape doc.
Proof. apply shape_map. Qed.


(** ** More on the Generate SOP handler *)

Section GenerateFacts.

Variable E : env.

(** The two ways [generate_doc] ends. *)
Lemma generate_doc_cases (w : world) :
  (exists msg,
      generate_doc E w
      = (Done tt, {| session := session w;
                     page := page w ++ [st_error msg] |}))
  \/ (missing (session w) = []
      /\ strptime (date (session w)) <> None
      /\ (forall s, raises E s = None)
      /\ generate_doc E w
         = (Done tt, {| session := with_document E (session w);
                        page := page w |})).
Proof.
  destruct (missing (session w)) as [|f fs] eqn:Hm.
  - destruct (strptime (date (session w))) as [d|] eqn:Hd.
    + assert (Hd' : strptime (date (session w)) <> None) by congruence.
      destruct (raises E Loading) as [e|] eqn:E0;
        [left; destruct (@generate_doc_render_raises E w Loading e Hm Hd' E0) as [e' He'];
         eexists; exact He'|].
      destruct (raises E Substitution) as [e|] eqn:E1;
        [left; destruct (@generate_doc_render_raises E w Substitution e Hm Hd' E1) as [e' He'];
         eexists; exact He'|].
      destruct (raises E FontAdjustment) as [e|] eqn:E2;
        [left; destruct (@generate_doc_render_raises E w FontAdjustment e Hm Hd' E2) as [e' He'];
         eexists; exact He'|].
      destruct (raises E Serialization) as [e|] eqn:E3;
        [left; destruct (@generate_doc_render_raises E w Serialization e Hm Hd' E3) as [e' He'];
         eexists; exact He'|].
      assert (Hall : forall s, raises E s = None) by (intros []; assumption).
      right. split; [reflexivity|]. split; [discriminate|].
      split; [exact Hall|].
      rewrite generate_doc_valid by assumption.
      unfold try_except. now rewrite (@render_returns E w Hall).
    + left. eexists. now apply generate_doc_bad_date.
  - left. eexists. apply generate_doc_missing. congruence.
Qed.

End GenerateFacts.

(** X6: [generate_doc] never lets an exception out and ends in one of two
    ways.  Either it shows exactly one error message and leaves the whole
    session as it was, or it shows nothing and stores the saved bytes of
    the substituted, resized template under [doc_bytes] and
    [CHECKLIST.NO - TITLE.docx] under [doc_filename]; the second happens
    only when all four required fields are filled, the date is valid and no
    stage of the render raises, and the first whenever one of these fails.
    In both cases the seven text fields, the suggestion and the expanded
    flag are unchanged. *)
Theorem generate_doc_two_ways (E : env) (w : world) :
  let after := generate_doc E w in
  fst after = Done tt
  /\ ((exists msg, snd after = {| session := session w;
                                  page := page w ++ [st_error msg] |})
      \/ (missing (session w) = []
          /\ strptime (date (session w)) <> None
          /\ (forall s, raises E s = None)
          /\ page (snd after) = page w
          /\ doc_bytes (session (snd after))
             = Some (saved E (adjust_font
                                (process_document (template E)
                                                  (field_values (session w)))
                                (Pt 8)))
          /\ doc_filename (session (snd after))
             = Some (checklist_no (session w) ++ py " - "
                     ++ title (session w) ++ py ".docx")))
  /\ (missing (session w) <> [] \/ strptime (date (session w)) = None
      \/ (exists s, raises E s <> None) ->
      exists msg, snd after = {| session := session w;
                                 page := page w ++ [st_error msg] |})
  /\ (forall f, get (session (snd after)) f = get (session w) f)
  /\ sop_suggestion (session (snd after)) = sop_suggestion (session w)
  /\ expanded (session (snd after)) = expanded (session w).
Proof.
  intros after. subst after.
  destruct (generate_doc_cases E w) as [[msg ->]|(Hm & Hd & Hr & ->)];
    cbn [fst snd session page].
  - split; [reflexivity|]. split; [left; eauto|].
    split; [intros _; eauto|]. repeat split.
  - split; [reflexivity|].
    split; [right; split; [exact Hm|]; split; [exact Hd|];
            split; [exact Hr|]; repeat split|].
    split.
    + intros [H|[H|[s H]]]; [congruence | congruence | exfalso; apply H, Hr].
    + split; [intros []; reflexivity | split; reflexivity].
Qed.

Lemma generate_doc_two_ways_witness :
  exists msg,
    snd (generate_doc broken (run_on radio_check))
    = {| session := radio_check; page := [st_error msg] |}.
Proof.
  destruct (generate_doc_two_ways broken (run_on radio_check))
    as [_ [_ [Hfail _]]].
  apply Hfail. right. right. exists Loading. discriminate.
Defined.

(** X7: when the fields are valid and no stage raises, a click on Generate
    SOP offers exactly the document rendered by that click, under the name
    [CHECKLIST.NO - TITLE.docx], whatever document an earlier click left in
    the session; if the saved document were empty, no download is offered
    and the general failure message is shown instead. *)
Theorem generate_offers_fresh_document (E : env) (w : world) :
  missing (session w) = [] ->
  strptime (date (session w)) <> None ->
  (forall s, raises E s = None) ->
  let data := rendered_bytes E (session w) in
  let after := generate_sop_clicked E w in
  fst after = Done tt
  /\ (data <> [] ->
      page (snd after)
      = page w ++ [st_download_button (py "Download") data
                     (checklist_no (session w) ++ py " - "
                      ++ title (session w) ++ py ".docx")])
  /\ (data = [] ->
      page (snd after)
      = page w ++ [st_error (py "Document generation failed or missing required fields.")]).
Proof.
  intros Hm Hd Hall data after. subst after.
  assert (Hg : generate_doc E w
               = (Done tt, {| session := with_document E (session w);
                              page := page w |})).
  { rewrite generate_doc_valid by assumption.
    unfold try_except. now rewrite (@render_returns E w Hall). }
  unfold generate_sop_clicked, bind. rewrite Hg. unfold read.
  cbn [session with_document set_doc_filename set_doc_bytes doc_bytes doc_filename].
  fold data. destruct data as [|b rest].
  - split; [reflexivity|]. split; [congruence | reflexivity].
  - split; [reflexivity|]. split; [reflexivity | discriminate].
Qed.

Lemma generate_offers_fresh_document_witness :
  let earlier := set_doc_filename (py "old.docx")
                   (set_doc_bytes [Byte.x00] radio_check) in
  downloads (page (snd (generate_sop_clicked healthy (run_on earlier))))
  = [(map byte_of_ascii (py "Date: 02 MARCH 2025Radio Check: Turn on radio."),
      py "100.001 - Radio Check.docx")].
Proof.
  intros earlier.
  assert (Hm : missing (session (run_on earlier)) = []) by reflexivity.
  assert (Hd : strptime (date (session (run_on earlier))) <> None)
    by (vm_compute; discriminate).
  assert (Hall : forall s, raises healthy s = None) by reflexivity.
  destruct (@generate_offers_fresh_document healthy (run_on earlier) Hm Hd Hall)
    as [_ [Hfresh _]].
  rewrite Hfresh by (vm_compute; discriminate).
  reflexivity.
Defined.

(** X8: when a click on Generate SOP fails (a required field blank, the
    date not parsed, or a stage of the render raising) and the session
    holds no document from an earlier click, two error messages are shown,
    the specific one and then the general one, no download is offered and
    the session is as it was. *)
Theorem generate_failure_without_document (E : env) (w : world) :
  doc_bytes (session w) = None ->
  missing (session w) <> [] \/ strptime (date (session w)) = None
  \/ (exists s, raises E s <> None) ->
  exists msg,
    generate_sop_clicked E w
    = (Done tt,
       {| session := session w;
          page := page w ++ [st_error msg;
                             st_error (py "Document generation failed or missing required fields.")] |}).
Proof.
  intros Hnone Hfail.
  destruct (generate_doc_cases E w) as [[msg Hg]|(Hm & Hd & Hr & _)].
  - exists msg. unfold generate_sop_clicked, bind. rewrite Hg. unfold read.
    cbn [session]. rewrite Hnone. unfold show. cbn [session page].
    now rewrite <- app_assoc.
  - exfalso. destruct Hfail as [H|[H|[s H]]]; [congruence | congruence |].
    apply H, Hr.
Qed.

Lemma generate_failure_without_document_witness :
  exists msg,
    generate_sop_clicked broken (run_on radio_check)
    = (Done tt,
       {| session := radio_check;
          page := [st_error msg;
                   st_error (py "Document generation failed or missing required fields.")] |}).
Proof.
  assert (Hfail : missing (session (run_on radio_check)) <> []
                  \/ strptime (date (session (run_on radio_check))) = None
                  \/ (exists s, raises broken s <> None))
    by (right; right; exists Loading; discriminate).
  exact (@generate_failure_without_document broken (run_on radio_check)
           eq_refl Hfail).
Defined.

(** X9: the session never holds document bytes without a file name for
    them: a session with that property keeps it through a click on
    Generate SOP, and the click then always ends normally (the lookup of
    [doc_filename] behind the test of [doc_bytes] cannot fail). *)
Theorem generate_keeps_document_named (E : env) (w : world) :
  named_when_rendered (session w) ->
  fst (generate_sop_clicked E w) = Done tt
  /\ named_when_rendered (session (snd (generate_sop_clicked E w))).
Proof.
  intros Hn. unfold generate_sop_clicked, bind.
  destruct (generate_doc_cases E w) as [[msg ->]|(_ & _ & _ & ->)];
    unfold read; cbn [session].
  - destruct (doc_bytes (session w)) as [[|b data]|] eqn:Hb;
      try (split; [reflexivity | exact Hn]).
    destruct (doc_filename (session w)) as [name|] eqn:Hf.
    + split; [reflexivity | exact Hn].
    + exfalso. apply Hn; congruence.
  - cbn [with_document set_doc_filename set_doc_bytes doc_bytes doc_filename].
    destruct (rendered_bytes E (session w)) as [|b data];
      (split; [reflexivity | intros _; discriminate]).
Qed.

Lemma generate_keeps_document_named_witness :
  let earlier := set_doc_filename (py "old.docx")
                   (set_doc_bytes [Byte.x00] radio_check) in
  (fst (generate_sop_clicked broken (run_on earlier)) = Done tt
   /\ named_when_rendered
        (session (snd (generate_sop_clicked broken (run_on earlier)))))
  /\ (fst (generate_sop_clicked healthy (run_on radio_check)) = Done tt
      /\ named_when_rendered
           (session (snd (generate_sop_clicked healthy (run_on radio_check)))))
  /\ downloads (page (snd (generate_sop_clicked broken (run_on earlier))))
     = [([Byte.x00], py "old.docx")].
Proof.
  intros earlier. split; [|split].
  - apply (@generate_keeps_document_named broken (run_on earlier)).
    intros _. discriminate.
  - apply (@generate_keeps_document_named healthy (run_on radio_check)).
    intros H. exfalso. apply H. reflexivity.
  - reflexivity.
Defined.

(** ** More on the suggestion: asking, declining, and the expanded flag *)

(** X10: pressing Decline on a stored suggestion changes nothing but the
    expanded flag, which becomes false: the actions, the suggestion and
    the other fields are as they were, and the script is not rerun, so in
    that run the panel is still drawn with the flag it had. *)
Theorem decline_keeps_actions (w : world) :
  truthy (sop_suggestion (session w)) = true ->
  let after := suggestion_panel false true w in
  fst after = Done tt
  /\ actions_text (session (snd after)) = actions_text (session w)
  /\ sop_suggestion (session (snd after)) = sop_suggestion (session w)
  /\ expanded (session (snd after)) = false
  /\ session (snd after) = set_expanded false (session w)
  /\ page (snd after)
     = page w ++ [st_expander (py "SOP Suggestion") (expanded (session w));
                  st_code (sop_suggestion (session w));
                  st_toast (py "SOP suggestion declined.")].
Proof.
  intros H after. subst after.
  unfold suggestion_panel, bind, read. rewrite H. cbn.
  rewrite <- !app_assoc. repeat split.
Qed.

Lemma decline_keeps_actions_witness :
  let st := set_sop_suggestion (py "A. B. C.") radio_check in
  actions_text (session (snd (suggestion_panel false true (run_on st))))
  = py "Turn on radio."
  /\ expanded (session (snd (suggestion_panel false true (run_on st)))) = false.
Proof.
  intros st.
  destruct (@decline_keeps_actions (run_on st) eq_refl)
    as [_ [Ha [_ [He _]]]].
  split; [exact Ha | exact He].
Defined.

(** X11: without a stored suggestion the panel is not drawn and its
    buttons do not exist: whatever the button flags, nothing is shown and
    the session is untouched.  With a stored suggestion and no button
    pressed, the suggestion is shown and the session is untouched. *)
Theorem panel_without_click (w : world) (accept decline : bool) :
  (truthy (sop_suggestion (session w)) = false ->
   suggestion_panel accept decline w = (Done tt, w))
  /\ (truthy (sop_suggestion (session w)) = true ->
      suggestion_panel false false w
      = (Done tt,
         {| session := session w;
            page := page w ++ [st_expander (py "SOP Suggestion")
                                           (expanded (session w));
                               st_code (sop_suggestion (session w))] |})).
Proof.
  split; intros H; unfold suggestion_panel, bind, read; rewrite H.
  - reflexivity.
  - cbn. now rewrite <- app_assoc.
Qed.

Lemma panel_without_click_witness :
  suggestion_panel true true (run_on radio_check) = (Done tt, run_on radio_check).
Proof.
  destruct (panel_without_click (run_on radio_check) true true) as [Hhidden _].
  apply Hhidden. reflexivity.
Defined.

Section AssistantFacts.

Variable api : service.

Lemma get_help_blank_title (w : world) :
  isblank (title (session w)) = true ->
  get_help_clicked api w
  = (Continues, {| session := session w;
                   page := page w ++ [st_error title_message] |}).
Proof. intros H. unfold get_help_clicked. now rewrite H. Qed.

Lemma get_help_expanded (w : world) :
  expanded (session (snd (get_help_clicked api w))) = expanded (session w).
Proof.
  unfold get_help_clicked.
  destruct (isblank (title (session w))); [reflexivity|].
  now destruct (generate_sop api _ _).
Qed.

End AssistantFacts.

(** X12: asking for help cannot go through without a title: when the
    title is blank, the handler shows [Please enter a Title first.], the
    script goes on, the session is as it was, and the completion service
    plays no part (the outcome is the same for every service). *)
Theorem get_help_needs_title (api api' : service) (w : world) :
  isblank (title (session w)) = true ->
  get_help_clicked api w
  = (Continues, {| session := session w;
                   page := page w ++ [st_error (py "Please enter a Title first.")] |})
  /\ get_help_clicked api w = get_help_clicked api' w.
Proof.
  intros H. split.
  - now apply get_help_blank_title.
  - now rewrite !get_help_blank_title.
Qed.

Lemma get_help_needs_title_witness :
  let st := form (py "   ") (py "100.001") (py "02 MARCH 2025") (py "steps") in
  get_help_clicked (fun _ _ => inr (py "draft")) (run_on st)
  = (Continues, {| session := st;
                   page := [st_error (py "Please enter a Title first.")] |}).
Proof.
  intros st.
  apply (@get_help_needs_title (fun _ _ => inr (py "draft"))
           (fun _ _ => inr (py "draft")) (run_on st) eq_refl).
Defined.

(** X13: with a title, the service is asked with the system prompt and a
    user message that carries the title and the actions as typed,
    untrimmed.  When the call raises, the exception's text is shown behind
    [API call failed: ], the script is halted and the session, an earlier
    suggestion included, is as it was.  When it answers, the answer less
    its reasoning blocks and outer whitespace replaces the stored
    suggestion and nothing else in the session changes; nothing is shown. *)
Theorem get_help_outcomes (api : service) (w : world) :
  isblank (title (session w)) = false ->
  let asked := api SYSTEM_PROMPT
                   (py "User has provided the following title and actions as a starting point for the SOP: "
                    ++ title (session w) ++ py " - "
                    ++ actions_text (session w)) in
  (forall e, asked = inl e ->
     get_help_clicked api w
     = (Stops, {| session := session w;
                  page := page w ++ [st_error (py "API call failed: "
                                               ++ message_of e)] |}))
  /\ (forall content, asked = inr content ->
        get_help_clicked api w
        = (Continues,
           {| session := set_sop_suggestion (strip (remove_think content))
                                            (session w);
              page := page w |})).
Proof.
  intros H asked. subst asked.
  split; intros x Hx; unfold get_help_clicked, generate_sop, user_message;
    rewrite H, Hx; reflexivity.
Qed.

Lemma get_help_outcomes_witness :
  let answering : service :=
    fun _ _ => inr (py "<think>plan</think> 1. Turn on radio. ") in
  let failing : service :=
    fun _ _ => inl {| message_of := py "401 Unauthorized" |} in
  let st := set_sop_suggestion (py "earlier draft") radio_check in
  get_help_clicked answering (run_on st)
  = (Continues,
     {| session := set_sop_suggestion (py "1. Turn on radio.") st; page := [] |})
  /\ get_help_clicked failing (run_on st)
     = (Stops,
        {| session := st;
           page := [st_error (py "API call failed: 401 Unauthorized")] |}).
Proof.
  intros answering failing st. split.
  - destruct (@get_help_outcomes answering (run_on st) eq_refl) as [_ Hok].
    apply (Hok (py "<think>plan</think> 1. Turn on radio. ")). reflexivity.
  - destruct (@get_help_outcomes failing (run_on st) eq_refl) as [Hfail _].
    apply (Hfail {| message_of := py "401 Unauthorized" |}). reflexivity.
Defined.

(** X14: no handler ever sets the expanded flag to true.  Once a
    suggestion has been accepted or declined the flag is false and stays
    false through every later click, so a new suggestion fetched with Get
    Help From AI is stored while the flag still says collapsed. *)
Theorem expanded_never_reopens (api : service) (E : env) (w : world)
        (accept decline : bool) :
  expanded (session w) = false ->
  expanded (session (snd (get_help_clicked api w))) = false
  /\ expanded (session (snd (suggestion_panel accept decline w))) = false
  /\ expanded (session (snd (generate_sop_clicked E w))) = false.
Proof.
  intros H. split; [|split].
  - now rewrite get_help_expanded.
  - unfold suggestion_panel, bind, read.
    destruct (truthy (sop_suggestion (session w))); [|exact H].
    destruct accept; [reflexivity|]. destruct decline; [reflexivity | exact H].
  - unfold generate_sop_clicked, bind.
    destruct (generate_doc_cases E w) as [[msg ->]|(_ & _ & _ & ->)];
      unfold read; cbn [session].
    + destruct (doc_bytes (session w)) as [[|b data]|]; try exact H.
      destruct (doc_filename (session w)); exact H.
    + cbn [with_document set_doc_filename set_doc_bytes doc_bytes doc_filename].
      destruct (rendered_bytes E (session w)); exact H.
Qed.

Lemma expanded_never_reopens_witness :
  let collapsed := set_expanded false radio_check in
  let after := snd (get_help_clicked (fun _ _ => inr (py "new draft"))
                                     (run_on collapsed)) in
  sop_suggestion (session after) = py "new draft"
  /\ expanded (session after) = false.
Proof.
  intros collapsed after. split; [reflexivity|].
  apply (@expanded_never_reopens (fun _ _ => inr (py "new draft")) healthy
           (run_on collapsed) false false eq_refl).
Defined.

(** ** More on the string transforms *)

Section BlankFacts.

Lemma lstrip_nil_iff (s : str) : lstrip s = [] <-> forallb isspace s = true.
Proof.
  induction s as [|c s IH]; [tauto|].
  cbn [lstrip forallb]. destruct (isspace c); cbn [andb]; [exact IH|].
  split; discriminate.
Qed.

Lemma forallb_rev (A : Type) (f : A -> bool) (l : list A) :
  forallb f (rev l) = forallb f l.
Proof.
  induction l as [|a l IH]; [reflexivity|].
  cbn [rev forallb]. rewrite forallb_app, IH. cbn [forallb].
  rewrite andb_true_r. apply andb_comm.
Qed.

Lemma lstrip_keeps_nonspace (s : str) :
  forallb isspace s = false -> forallb isspace (lstrip s) = false.
Proof.
  induction s as [|c s IH]; [discriminate|].
  cbn [lstrip forallb]. destruct (isspace c) eqn:Ec; cbn [andb].
  - exact IH.
  - intros _. cbn [forallb]. now rewrite Ec.
Qed.

Lemma strip_nil_iff (s : str) : strip s = [] <-> forallb isspace s = true.
Proof.
  unfold strip, rstrip. split.
  - intros H. destruct (forallb isspace s) eqn:E; [reflexivity|].
    apply lstrip_keeps_nonspace in E.
    rewrite <- forallb_rev in E. apply lstrip_keeps_nonspace in E.
    rewrite <- forallb_rev, H in E. discriminate.
  - intros H. apply lstrip_nil_iff in H. now rewrite H.
Qed.

Lemma replace_scan_empty_shrinks (old : str) (k : nat) (s : str) :
  length (replace_scan old [] k s) <= length s.
Proof.
  revert k. induction s as [|c s IH]; intros k; [reflexivity|].
  cbn [replace_scan]. destruct k as [|k].
  - destruct (startswith old (c :: s)); cbn [app length].
    + specialize (IH (length old - 1)). lia.
    + specialize (IH 0). lia.
  - specialize (IH k). cbn [length]. lia.
Qed.

Lemma str_replace_empty_shrinks (s old : str) :
  length (str_replace s old []) <= length s.
Proof.
  destruct old as [|a o].
  - unfold str_replace. cbn [app].
    induction s as [|c s IH]; [reflexivity|]. cbn. lia.
  - apply replace_scan_empty_shrinks.
Qed.

Lemma sub_scan_shrinks (k : nat) (s : str) : length (sub_scan k s) <= length s.
Proof.
  revert k. induction s as [|c s IH]; intros k; [reflexivity|].
  cbn [sub_scan]. destruct k as [|k].
  - destruct (startswith open_tag (c :: s)).
    + destruct (find close_tag _) as [j|]; cbn [length].
      * specialize (IH (length open_tag + j + length close_tag - 1)). lia.
      * specialize (IH 0). lia.
    + specialize (IH 0). cbn [length]. lia.
  - specialize (IH k). cbn [length]. lia.
Qed.

Lemma isblank_forallb (s : str) : isblank s = forallb isspace s.
Proof.
  unfold isblank. destruct (forallb isspace s) eqn:E.
  - apply strip_nil_iff in E. now rewrite E.
  - destruct (strip s) as [|c t] eqn:Es; [|reflexivity].
    apply strip_nil_iff in Es. congruence.
Qed.

End BlankFacts.

(** X15: a field counts as blank, for the required-field check, the title
    check of Get Help From AI and the choice between a value and the empty
    string in the substitution, exactly when every one of its characters is
    whitespace (the empty string included). *)
Theorem isblank_all_whitespace (s : str) : isblank s = forallb isspace s.
Proof. apply isblank_forallb. Qed.

(** X16: the substitution makes nothing out of nothing: on the empty text
    it returns the empty text, whatever the dict holds. *)
Theorem replace_placeholders_empty_text (field_values : fieldset) :
  replace_placeholders [] field_values = [].
Proof.
  induction field_values as [|[key value] rest IH]; [reflexivity|].
  rewrite replace_placeholders_cons, replace_step_effective.
  rewrite str_replace_absent; [exact IH | reflexivity].
Qed.

(** X17: blank values only delete.  When every value of the dict is blank,
    the substituted text is never longer than the text, and each pass for
    a blank value removes the key's tokens without putting anything in. *)
Theorem blank_values_only_delete (text : str) (field_values : fieldset) :
  Forall (fun kv => isblank (snd kv) = true) field_values ->
  length (replace_placeholders text field_values) <= length text.
Proof.
  revert text. induction field_values as [|[key value] rest IH];
    intros text H; [reflexivity|].
  inversion H as [|? ? Hb Hrest]; subst. cbn [snd] in Hb.
  rewrite replace_placeholders_cons, replace_step_effective.
  unfold effective. unfold isblank in Hb.
  destruct (truthy (strip value)); [discriminate|].
  etransitivity; [apply IH, Hrest | apply str_replace_empty_shrinks].
Qed.

Lemma blank_values_only_delete_witness :
  length (replace_placeholders (py "{{CODE}} rev {{REV}}")
                               [(py "CODE", py " "); (py "REV", [])])
  <= length (py "{{CODE}} rev {{REV}}").
Proof.
  apply blank_values_only_delete. repeat constructor.
Defined.

(** X18: the post-processing of a completion only takes characters away:
    neither the text without its reasoning blocks nor the suggestion that
    is returned is longer than the completion. *)
Theorem postprocess_never_lengthens (content : str) :
  length (remove_think content) <= length content
  /\ length (postprocess content) <= length (remove_think content).
Proof.
  split.
  - apply sub_scan_shrinks.
  - destruct (strip_spec (remove_think content)) as (l & r & E & _).
    unfold postprocess. rewrite E at 2. rewrite !length_app. lia.
Qed.

(** ** More on the date check, and the default date *)

Section SpacedDates.

Lemma alternation_day_any (day : Z) (r : str) :
  (1 <= day <= 31)%Z ->
  exists more,
    alternation day_group (two_digits day ++ r) = (two_digits day, r) :: more.
Proof.
  intros H. apply hd_error_cons_inv.
  assert (E : exists n, day = Z.of_nat n /\ n <= 31)
    by (exists (Z.to_nat day); lia).
  destruct E as (n & -> & Hn).
  do 32 (destruct n as [|n]; [first [lia | vm_compute; reflexivity]|]).
  lia.
Qed.

(** [\s+] first takes the whole run of whitespace. *)
Lemma spaces_run (ws : str) (c : ascii) (r : str) :
  ws <> [] -> forallb isspace ws = true -> isspace c = false ->
  exists more, spaces (ws ++ c :: r) = (c :: r) :: more.
Proof.
  intros Hne Hws Hc. induction ws as [|s ws IH]; [congruence|].
  cbn [forallb] in Hws. apply andb_true_iff in Hws as [Hs Hws].
  change ((s :: ws) ++ c :: r) with (s :: (ws ++ c :: r)).
  cbn [spaces]. rewrite Hs. destruct ws as [|s' ws'].
  - cbn [app spaces]. rewrite Hc. now exists [].
  - destruct (IH ltac:(discriminate) Hws) as [more ->].
    eexists. reflexivity.
Qed.

Lemma alternation_month_any (name rest : str) (i : nat) :
  nth_error month_names i = Some (map lower name) ->
  alternation month_group (name ++ rest) = [(name, rest)].
Proof.
  intros Hi. unfold month_group. rewrite alternation_literals, map_app.
  assert (Hcut : forall nm : str, length nm = length (map lower name) ->
                   (firstn (length nm) (name ++ rest),
                    skipn (length nm) (name ++ rest))
                   = (name, rest)).
  { intros nm Hn. rewrite length_map in Hn.
    destruct (@firstn_length_app name rest _ Hn) as [-> ->].
    reflexivity. }
  set (cut := fun nm : str =>
                (firstn (length nm) (name ++ rest),
                 skipn (length nm) (name ++ rest))) in *.
  change (flat_map
            (fun nm => if startswith (map lower nm)
                                     (map lower name ++ map lower rest)
                       then [cut nm] else [])
            month_group_names = [(name, rest)]).
  change (forall nm : str, length nm = length (map lower name) ->
                           cut nm = (name, rest)) in Hcut.
  clearbody cut. revert Hcut.
  generalize (map lower rest). intros R Hcut.
  do 12 (destruct i as [|i];
         [ injection Hi as Hi; rewrite <- Hi in Hcut |- *;
           vm_compute; f_equal; apply Hcut; reflexivity |]).
  destruct i; discriminate.
Qed.

Lemma digit_not_space (n : Z) : isspace (digit n) = false.
Proof. apply isspace_digit. Qed.

(** The first match on a date written with any whitespace between its
    parts. *)
Lemma matches_spaced (day year : Z) (i : nat) (name ws1 ws2 : str) :
  (1 <= day <= 31)%Z ->
  nth_error month_names i = Some (map lower name) ->
  ws1 <> [] -> forallb isspace ws1 = true ->
  ws2 <> [] -> forallb isspace ws2 = true ->
  exists more,
    matches (two_digits day ++ ws1 ++ name ++ ws2 ++ four_digits year)
    = (two_digits day, name, four_digits year, []) :: more.
Proof.
  intros Hday Hi Hn1 Hw1 Hn2 Hw2.
  destruct (@alternation_day_any day (ws1 ++ name ++ ws2 ++ four_digits year) Hday)
    as [more0 Hd].
  destruct (@month_name_head i name Hi) as (c & name' & Hname & Hc).
  assert (Hs1 : exists more,
             spaces (ws1 ++ name ++ ws2 ++ four_digits year)
             = (name ++ ws2 ++ four_digits year) :: more).
  { rewrite Hname. change ((c :: name') ++ ws2 ++ four_digits year)
      with (c :: (name' ++ ws2 ++ four_digits year)).
    now apply spaces_run. }
  destruct Hs1 as [more1 Hs1].
  assert (Hs2 : exists more,
             spaces (ws2 ++ four_digits year) = four_digits year :: more).
  { unfold four_digits. apply spaces_run; auto using digit_not_space. }
  destruct Hs2 as [more2 Hs2].
  eexists. unfold matches. rewrite Hd. cbn [flat_map fst snd].
  rewrite Hs1. cbn [flat_map].
  rewrite (@alternation_month_any name (ws2 ++ four_digits year) i Hi).
  cbn [flat_map fst snd]. rewrite Hs2. cbn [flat_map].
  rewrite alternation_year. cbn [map fst snd app]. reflexivity.
Qed.

Lemma upper_app (a b a' b' : str) :
  upper a = Some a' -> upper b = Some b' -> upper (a ++ b) = Some (a' ++ b').
Proof.
  revert a'. induction a as [|c a IH]; intros a' Ha Hb.
  - injection Ha as <-. exact Hb.
  - cbn [upper app] in *. destruct (upper_char c) as [c'|]; [|discriminate].
    destruct (upper a) as [u|]; [|discriminate]. injection Ha as <-.
    now rewrite (IH u eq_refl Hb).
Qed.

Lemma upper_char_digit (n : Z) : upper_char (digit n) = Some (digit n).
Proof.
  destruct (digit_range n) as (k & Hk & -> & _).
  assert (k = 0 \/ k = 1 \/ k = 2 \/ k = 3 \/ k = 4 \/ k = 5 \/ k = 6
          \/ k = 7 \/ k = 8 \/ k = 9)%Z
    as [->|[->|[->|[->|[->|[->|[->|[->|[->| ->]]]]]]]]] by lia;
    reflexivity.
Qed.

Lemma upper_two_digits (n : Z) : upper (two_digits n) = Some (two_digits n).
Proof. unfold two_digits. cbn [upper]. now rewrite !upper_char_digit. Qed.

Lemma upper_four_digits (n : Z) : upper (four_digits n) = Some (four_digits n).
Proof. unfold four_digits. cbn [upper]. now rewrite !upper_char_digit. Qed.

Lemma strptime_spaced (day year : Z) (i : nat) (name ws1 ws2 : str) :
  (1 <= day <= 31)%Z -> (0 <= year <= 9999)%Z ->
  nth_error month_names i = Some (map lower name) ->
  ws1 <> [] -> forallb isspace ws1 = true ->
  ws2 <> [] -> forallb isspace ws2 = true ->
  strptime (two_digits day ++ ws1 ++ name ++ ws2 ++ four_digits year)
  = if valid_date year (Z.of_nat (S i)) day
    then Some (year, Z.of_nat (S i), day) else None.
Proof.
  intros Hd Hy Hi Hn1 Hw1 Hn2 Hw2. unfold strptime.
  destruct (@matches_spaced day year i name ws1 ws2 Hd Hi Hn1 Hw1 Hn2 Hw2)
    as [more ->].
  rewrite (@index_of_month _ _ Hi).
  rewrite int_four_digits by lia. rewrite int_two_digits by lia.
  reflexivity.
Qed.

End SpacedDates.

(** X19: on a text made of a two-digit day from 01 to 31, whitespace, a
    full English month name in any letter-casing, whitespace and four
    digits, the date check accepts exactly when day, month and year are a
    calendar date: the whitespace may be any non-empty run of spaces, tabs
    or other whitespace, and impossible dates (31 APRIL, 29 FEBRUARY of a
    year that is not a leap year, the year 0000) are rejected. *)
Theorem date_check_on_written_dates
        (day year : Z) (i : nat) (name ws1 ws2 : str) :
  (1 <= day <= 31)%Z -> (0 <= year <= 9999)%Z ->
  nth_error month_names i = Some (map lower name) ->
  ws1 <> [] -> forallb isspace ws1 = true ->
  ws2 <> [] -> forallb isspace ws2 = true ->
  strptime (two_digits day ++ ws1 ++ name ++ ws2 ++ four_digits year)
  = if valid_date year (Z.of_nat (S i)) day
    then Some (year, Z.of_nat (S i), day) else None.
Proof.
  intros. now apply strptime_spaced.
Qed.

Lemma date_check_on_written_dates_witness :
  let tab := ascii_of_N 9 in
  strptime (py "31" ++ [tab] ++ py "April" ++ py "   " ++ py "2025") = None
  /\ strptime (py "30" ++ [tab] ++ py "April" ++ py "   " ++ py "2025")
     = Some (2025, 4, 30)%Z.
Proof.
  intros tab. split.
  - apply (@date_check_on_written_dates 31 2025 3 (py "April") [tab] (py "   "));
      first [lia | reflexivity | discriminate].
  - apply (@date_check_on_written_dates 30 2025 3 (py "April") [tab] (py "   "));
      first [lia | reflexivity | discriminate].
Defined.

(** X20: the date the script seeds the Creation Date field with passes the
    script's own date check.  For every calendar date from the year 1000
    on, [strftime("%d %B %Y").upper()] is a text that [strptime] parses
    back to that same date; and on a fresh session, seeded with it, Generate
    SOP reports exactly title, checklist_no and actions_text as missing,
    not the date. *)
Theorem default_date_round_trip (year month day : Z) :
  valid_date year month day = true -> (1000 <= year)%Z ->
  exists today,
    upper (strftime year month day) = Some today
    /\ strptime today = Some (year, month, day)
    /\ missing (with_defaults today nothing_stored)
       = [f_title; f_checklist_no; f_actions_text].
Proof.
  intros Hv Hy.
  destruct (@valid_date_bounds year month day Hv) as (Hyr & Hm & Hd).
  assert (Hcases : exists NAME : str,
             upper (nth (Z.to_nat (month - 1)) month_titles []) = Some NAME
             /\ nth_error month_names (Z.to_nat (month - 1))
                = Some (map lower NAME)).
  { assert (month = 1 \/ month = 2 \/ month = 3 \/ month = 4 \/ month = 5
            \/ month = 6 \/ month = 7 \/ month = 8 \/ month = 9
            \/ month = 10 \/ month = 11 \/ month = 12)%Z
      as [->|[->|[->|[->|[->|[->|[->|[->|[->|[->|[->| ->]]]]]]]]]]] by lia;
      eexists; split; vm_compute; reflexivity. }
  destruct Hcases as (NAME & Hup & Hnth).
  exists (two_digits day ++ py " " ++ NAME ++ py " " ++ four_digits year).
  split; [|split].
  - unfold strftime.
    repeat (apply upper_app;
            [first [apply upper_two_digits | exact Hup | reflexivity]|]).
    apply upper_four_digits.
  - rewrite (@strptime_spaced day year (Z.to_nat (month - 1)) NAME
               (py " ") (py " "));
      first [lia | exact Hnth | discriminate | reflexivity | idtac].
    replace (Z.of_nat (S (Z.to_nat (month - 1)))) with month by lia.
    now rewrite Hv.
  - unfold missing, required. cbn [filter get with_defaults nothing_stored
      or_default stored_title stored_checklist_no stored_date
      stored_actions_text title checklist_no date actions_text].
    rewrite (isblank_forallb (two_digits day ++ _)).
    unfold two_digits at 1. cbn [app forallb].
    rewrite isspace_digit. reflexivity.
Qed.

Lemma default_date_round_trip_witness :
  exists today,
    upper (strftime 2025 3 2) = Some today
    /\ strptime today = Some (2025, 3, 2)%Z
    /\ missing (with_defaults today nothing_stored)
       = [f_title; f_checklist_no; f_actions_text].
Proof.
  apply (@default_date_round_trip 2025 3 2 eq_refl). lia.
Defined.

(** X21: the defaults never overwrite what the session already holds: a
    session that went through a run comes back from the block of defaults
    unchanged on the next run, whatever the date has become, and a stored
    date, valid or not, is kept in place of today's. *)
Theorem defaults_keep_stored (today : str) (st : session_state) (s : stored)
        (kept : str) :
  with_defaults today (store st) = st
  /\ (stored_date s = Some kept -> date (with_defaults today s) = kept).
Proof.
  split.
  - now destruct st.
  - intros H. unfold with_defaults. cbn [date]. now rewrite H.
Qed.

Lemma defaults_keep_stored_witness :
  let st := form (py "Radio Check") (py "100.001") (py "1 jan") (py "steps") in
  date (with_defaults (py "02 MARCH 2025") (store st)) = py "1 jan".
Proof.
  intros st.
  destruct (defaults_keep_stored (py "02 MARCH 2025") st (store st) (py "1 jan"))
    as [_ Hkept].
  apply Hkept. reflexivity.
Defined.

